(** * fly-wireguard-vpn-proxy: the bootstrap gate and the keepalive monitor

    A shallow embedding of
      - [internal/bootstrap/server.go]  (Server.bootstrap, Server.keepaliveLoop,
                                         Server.rewriteEndpoint),
      - [internal/config/config.go]     (Config and its two path methods),
      - [cmd/bootstrap-http/main.go]    (the stand-alone /bootstrap handler and
                                         its copy of rewriteEndpoint),
    together with the part of Go's [strings] package these functions call.

    Go strings are byte sequences; they are modelled as [string], whose
    characters are 8-bit.  Go [int] values are modelled as [Z]: every integer
    in the embedded code is a length, an index or a count of a string that
    fits in memory, so no wrap-around can occur. *)

From Stdlib Require Import ZArith Lia Ascii String List Bool.
From stdpp Require Import base list strings gmap.

Local Open Scope Z_scope.

(** ** Go's [strings] package, as far as the program uses it *)

Module GoStrings.

Definition byte (n : N) : ascii := ascii_of_N n.

Definition byte_eqb (c : ascii) (n : N) : bool := (N_of_ascii c =? n)%N.

(** The separator of [strings.Split(conf, "\n")]. *)
Definition nl : string := String (byte 10) "".

Definition len (s : string) : Z := Z.of_nat (String.length s).

(** [s[lo:hi]].  Go panics when the bounds are out of range; every slice
    taken by the embedded code is in range (the indentation length lies
    between 0 and the length of the line, and [lastColon] is guarded), so
    the total function below is only ever used where Go does not panic. *)
Definition slice (s : string) (lo hi : Z) : string :=
  String.substring (Z.to_nat lo) (Z.to_nat (hi - lo)) s.

Definition slice_to (s : string) (hi : Z) : string := slice s 0 hi.
Definition slice_from (s : string) (lo : Z) : string := slice s lo (len s).

(** [strings.HasPrefix(s, prefix)]. *)
Definition HasPrefix (s prefix : string) : bool := String.prefix prefix s.

(** [strings.TrimPrefix(s, prefix)]. *)
Definition TrimPrefix (s prefix : string) : string :=
  if HasPrefix s prefix then slice_from s (len prefix) else s.

(** [strings.Contains(s, substr)]. *)
Fixpoint Contains (s substr : string) : bool :=
  HasPrefix s substr ||
  match s with
  | EmptyString => false
  | String _ s' => Contains s' substr
  end.

(** [strings.LastIndex(s, substr)]: the byte index of the last occurrence,
    [-1] when there is none. *)
Fixpoint LastIndex (s substr : string) : Z :=
  match s with
  | EmptyString => if HasPrefix s substr then 0 else -1
  | String _ s' =>
      let r := LastIndex s' substr in
      if 0 <=? r then r + 1
      else if HasPrefix s substr then 0 else -1
  end.

(** [strings.Count(s, substr)] for a non-empty [substr]: the number of
    non-overlapping occurrences, found left to right.  [skip] counts the
    bytes of the occurrence just found that are still to be passed over.
    (For an empty [substr] Go returns the number of runes plus one; the
    program never asks for that.) *)
Fixpoint count_from (s substr : string) (skip : nat) : Z :=
  match s with
  | EmptyString => 0
  | String _ s' =>
      match skip with
      | S k => count_from s' substr k
      | O =>
          if HasPrefix s substr
          then 1 + count_from s' substr (String.length substr - 1)
          else count_from s' substr 0
      end
  end.

Definition Count (s substr : string) : Z := count_from s substr 0.

(** [strings.Split(s, sep)] for a non-empty [sep]: the pieces between the
    non-overlapping occurrences of [sep], found left to right; always at
    least one piece.  The head of the result is the piece being built. *)
Fixpoint split_from (s sep : string) (skip : nat) : list string :=
  match s with
  | EmptyString => [EmptyString]
  | String c s' =>
      match skip with
      | S k => split_from s' sep k
      | O =>
          if HasPrefix s sep
          then EmptyString :: split_from s' sep (String.length sep - 1)
          else match split_from s' sep 0 with
               | piece :: pieces => String c piece :: pieces
               | [] => [String c EmptyString]
               end
      end
  end.

Definition Split (s sep : string) : list string := split_from s sep 0.

(** [strings.Join(elems, sep)]. *)
Fixpoint Join (elems : list string) (sep : string) : string :=
  match elems with
  | [] => EmptyString
  | [e] => e
  | e :: rest => e +:+ sep +:+ Join rest sep
  end.

(** Membership of a byte in an ASCII cutset. *)
Fixpoint inCutset (c : ascii) (cutset : string) : bool :=
  match cutset with
  | EmptyString => false
  | String d cutset' => Ascii.eqb c d || inCutset c cutset'
  end.

(** [strings.TrimLeft(s, cutset)] for a cutset of ASCII bytes (the program
    passes " \t" and " ="): Go then strips leading bytes one by one. *)
Fixpoint TrimLeft (s cutset : string) : string :=
  match s with
  | EmptyString => EmptyString
  | String c s' => if inCutset c cutset then TrimLeft s' cutset else s
  end.

(** The table [asciiSpace] of package strings: '\t' '\n' '\v' '\f' '\r' ' '. *)
Definition asciiSpace (c : ascii) : bool :=
  byte_eqb c 9 || byte_eqb c 10 || byte_eqb c 11 || byte_eqb c 12 ||
  byte_eqb c 13 || byte_eqb c 32.

(** The white-space runes of [unicode.IsSpace] above U+007F, by their UTF-8
    encodings (Go's decoder accepts exactly the shortest encoding of a rune,
    and an invalid byte decodes to U+FFFD, which is not white space):
    U+0085 and U+00A0 take two bytes; U+1680, U+2000..U+200A, U+2028,
    U+2029, U+202F, U+205F and U+3000 take three. *)
Definition space2 (b0 b1 : ascii) : bool :=
  byte_eqb b0 194 && (byte_eqb b1 133 || byte_eqb b1 160).

Definition space3 (b0 b1 b2 : ascii) : bool :=
  (byte_eqb b0 225 && byte_eqb b1 154 && byte_eqb b2 128) ||
  (byte_eqb b0 226 && byte_eqb b1 128 &&
     ((128 <=? N_of_ascii b2)%N && (N_of_ascii b2 <=? 138)%N
      || byte_eqb b2 168 || byte_eqb b2 169 || byte_eqb b2 175)) ||
  (byte_eqb b0 226 && byte_eqb b1 129 && byte_eqb b2 159) ||
  (byte_eqb b0 227 && byte_eqb b1 128 && byte_eqb b2 128).

(** [strings.TrimLeftFunc(s, unicode.IsSpace)]. *)
Fixpoint TrimLeftSpace (s : string) : string :=
  match s with
  | EmptyString => EmptyString
  | String b0 s1 =>
      if asciiSpace b0 then TrimLeftSpace s1
      else
        match s1 with
        | EmptyString => s
        | String b1 s2 =>
            if space2 b0 b1 then TrimLeftSpace s2
            else
              match s2 with
              | EmptyString => s
              | String b2 s3 =>
                  if space3 b0 b1 b2 then TrimLeftSpace s3 else s
              end
        end
  end.

Fixpoint rev_onto (s acc : string) : string :=
  match s with
  | EmptyString => acc
  | String c s' => rev_onto s' (String c acc)
  end.

Definition reverse (s : string) : string := rev_onto s EmptyString.

(** The same scan from the end of the string, on the reversed bytes: the
    last rune is white space exactly when the string ends with one of the
    encodings above. *)
Fixpoint TrimLeftSpaceRev (r : string) : string :=
  match r with
  | EmptyString => EmptyString
  | String b0 r1 =>
      if asciiSpace b0 then TrimLeftSpaceRev r1
      else
        match r1 with
        | EmptyString => r
        | String b1 r2 =>
            if space2 b1 b0 then TrimLeftSpaceRev r2
            else
              match r2 with
              | EmptyString => r
              | String b2 r3 =>
                  if space3 b2 b1 b0 then TrimLeftSpaceRev r3 else r
              end
        end
  end.

(** [strings.TrimRightFunc(s, unicode.IsSpace)]. *)
Definition TrimRightSpace (s : string) : string :=
  reverse (TrimLeftSpaceRev (reverse s)).

(** [strings.TrimSpace(s)]: leading and trailing white space, as defined by
    Unicode, removed. *)
Definition TrimSpace (s : string) : string :=
  TrimRightSpace (TrimLeftSpace s).

(** The width in bytes of the white-space rune at the front of [s], [0] when
    [s] does not start with white space. *)
Definition spaceWidth (s : string) : nat :=
  match s with
  | EmptyString => 0%nat
  | String b0 s1 =>
      if asciiSpace b0 then 1%nat
      else
        match s1 with
        | EmptyString => 0%nat
        | String b1 s2 =>
            if space2 b0 b1 then 2%nat
            else
              match s2 with
              | EmptyString => 0%nat
              | String b2 _ => if space3 b0 b1 b2 then 3%nat else 0%nat
              end
        end
  end.

(** [strings.Fields(s)]: the maximal runs of bytes between white space, in
    order.  [cur] is the field being read; [skip] counts the bytes of a
    multi-byte white-space rune still to be passed over. *)
Fixpoint fields_from (s : string) (skip : nat) (cur : string) : list string :=
  match s with
  | EmptyString => if String.eqb cur "" then [] else [cur]
  | String c s' =>
      match skip with
      | S k => fields_from s' k cur
      | O =>
          match spaceWidth s with
          | O => fields_from s' 0 (cur +:+ String c "")
          | S k =>
              (if String.eqb cur "" then [] else [cur]) ++ fields_from s' k ""
          end
      end
  end.

Definition Fields (s : string) : list string := fields_from s 0 "".

End GoStrings.

(** ** Go's [strconv.ParseInt(s, 10, 64)] *)

Module GoStrconv.

Inductive ParseResult : Type :=
| Parsed (n : Z)
| ErrSyntax
| ErrRange.

(** The value of a decimal digit, [None] for any other byte (in base 10 a
    letter or an underscore is a syntax error). *)
Definition digitOf (c : ascii) : option Z :=
  let n := N_of_ascii c in
  if ((48 <=? n) && (n <=? 57))%N then Some (Z.of_N n - 48) else None.

Fixpoint parseDigits (s : string) (n : Z) : option Z :=
  match s with
  | EmptyString => Some n
  | String c s' =>
      match digitOf c with
      | None => None
      | Some d => parseDigits s' (10 * n + d)
      end
  end.

(** [strconv.ParseUint(s, 10, 64)].  On overflow Go reports [ErrRange]
    together with the largest value. *)
Definition ParseUint (s : string) : ParseResult :=
  match s with
  | EmptyString => ErrSyntax
  | _ =>
      match parseDigits s 0 with
      | None => ErrSyntax
      | Some n => if n <? 2 ^ 64 then Parsed n else ErrRange
      end
  end.

Definition ParseInt (s : string) : ParseResult :=
  match s with
  | EmptyString => ErrSyntax
  | String c s' =>
      let '(neg, digits) :=
        if Ascii.eqb c "+"%char then (false, s')
        else if Ascii.eqb c "-"%char then (true, s')
        else (false, s) in
      match ParseUint digits with
      | ErrSyntax => ErrSyntax
      | r =>
          let un := match r with Parsed n => n | _ => 2 ^ 64 - 1 end in
          let cutoff := 2 ^ 63 in
          if negb neg && (cutoff <=? un) then ErrRange
          else if neg && (cutoff <? un) then ErrRange
          else Parsed (if neg then - un else un)
      end
  end.

End GoStrconv.

(** ** Endpoint normalisation

    [Server.rewriteEndpoint] in internal/bootstrap/server.go and
    [rewriteEndpoint] in cmd/bootstrap-http/main.go are the same text (the
    receiver [s] is unused), so one embedding serves both. *)

Module Endpoint.
Import GoStrings.

(** The cutset [" \t"] of the indentation scan. *)
Definition spaceTab : string := String " "%char (String (byte 9) "").

(** What one iteration of [for i, line := range lines] does. *)
Inductive LineAction : Type :=
| Continue                 (* [continue]: not an Endpoint line *)
| Rewrite (target : string) (* [lines[i] = indent + target; return Join] *)
| Keep.                    (* [return conf] *)

Definition isEndpointLine (line : string) : bool :=
  let trimmed := TrimSpace line in
  HasPrefix trimmed "Endpoint " || HasPrefix trimmed "Endpoint=".

Definition indentLen (line : string) : Z :=
  len line - len (TrimLeft line spaceTab).

Definition indentOf (line : string) : string :=
  slice_to line (indentLen line).

Definition currentOf (line : string) : string :=
  let trimmed := TrimSpace line in
  let rest := TrimSpace (TrimPrefix trimmed "Endpoint") in
  TrimLeft rest " =".

Definition rewriteLine (line appName port : string) : LineAction :=
  let trimmed := TrimSpace line in
  if negb (HasPrefix trimmed "Endpoint ") && negb (HasPrefix trimmed "Endpoint=")
  then Continue
  else
    let indent := indentOf line in
    let current := currentOf line in
    if negb (String.eqb appName "") && negb (String.eqb port "") then
      Rewrite (indent +:+ "Endpoint = " +:+ appName +:+ ".fly.dev:" +:+ port)
    else if (1 <? Count current ":") && negb (Contains current "]") then
      let lastColon := LastIndex current ":" in
      if (0 <? lastColon) && (lastColon <? len current - 1) then
        let host := slice_to current lastColon in
        let p := slice_from current (lastColon + 1) in
        if negb (String.eqb p "") then
          Rewrite (indent +:+ "Endpoint = [" +:+ host +:+ "]:" +:+ p)
        else Keep
      else Keep
    else Keep.

(** The loop, from index [i] on; [todo] is [lines[i:]]. *)
Fixpoint rewriteFrom (conf : string) (lines : list string)
    (appName port : string) (i : nat) (todo : list string) : string :=
  match todo with
  | [] => conf
  | line :: todo' =>
      match rewriteLine line appName port with
      | Continue => rewriteFrom conf lines appName port (S i) todo'
      | Rewrite newLine => Join (<[i := newLine]> lines) nl
      | Keep => conf
      end
  end.

Definition rewriteEndpoint (conf appName port : string) : string :=
  let lines := Split conf nl in
  rewriteFrom conf lines appName port 0%nat lines.

(** The longest prefix of [s] made of bytes of [cutset]: what
    [strings.TrimLeft(s, cutset)] removes. *)
Fixpoint takeCutset (s cutset : string) : string :=
  match s with
  | EmptyString => EmptyString
  | String c s' =>
      if inCutset c cutset then String c (takeCutset s' cutset) else EmptyString
  end.

Definition startsInCutset (s cutset : string) : bool :=
  match s with
  | EmptyString => false
  | String c _ => inCutset c cutset
  end.

(** The leading white space of a line: what [strings.TrimSpace] removes at
    its front. *)
Definition leadingSpace (line : string) : string :=
  slice_to line (len line - len (TrimLeftSpace line)).

(** A string without a line feed. *)
Definition oneLine (s : string) : Prop := inCutset (byte 10) s = false.

(** An ASCII byte that is not white space. *)
Definition plainByte (c : ascii) : bool :=
  (N_of_ascii c <? 128)%N && negb (asciiSpace c).

(** The directive written when the host name and the port are known:
    [fmt.Sprintf("Endpoint = %s.fly.dev:%s", appName, port)]. *)
Definition hostTarget (appName port : string) : string :=
  "Endpoint = " +:+ appName +:+ ".fly.dev:" +:+ port.

(** [line] is the first Endpoint line of [lines], at index [i]. *)
Definition firstEndpointAt (lines : list string) (i : nat) (line : string) : Prop :=
  lines !! i = Some line
  /\ isEndpointLine line = true
  /\ forall j l, (j < i)%nat -> lines !! j = Some l -> isEndpointLine l = false.

End Endpoint.

(** ** The world the handlers run in

    The handlers touch the file system ([os.Stat], [os.ReadFile],
    [os.WriteFile]) and call three library collaborators.  The file system is
    a finite map from cleaned paths to contents.  A write either succeeds or
    fails without creating the file (a read-only or missing volume); which of
    the two is a property of the world, so that it persists across requests.

    Two situations of a real file system are outside this model, and no
    result below speaks about them: a file that exists but cannot be read
    (here [os.Stat] and [os.ReadFile] answer from the same map), and a write
    that fails after it has created or truncated its file (here a failed
    write leaves the map as it was).

    Every effect is recorded, in order, in a trace of [Event]s: the trace is
    what a call-count assertion on a collaborator would observe. *)

Module Http.

Record World : Type := mkWorld {
  files : gmap string string;
  readOnly : bool
}.

Inductive Event : Type :=
| EvStat (path : string)
| EvQueryGet (key : string)
| EvReadFile (path : string)
| EvEncode (content : string)
| EvWriteFile (path data : string)
| EvLog (what : string)
| EvExecute (config qrBase64 : string).

(** What the client receives: the status line and the body.  (Headers are
    left out; no claim is about them.) *)
Record Response : Type := mkResponse {
  status : Z;
  body : string
}.

(** [r.URL.Query()]: a [url.Values], i.e. [map[string][]string]. *)
Record Request : Type := mkRequest {
  query : gmap string (list string)
}.

(** [url.Values.Get]: the first value of the key, [""] when there is none. *)
Definition Values_Get (v : gmap string (list string)) (key : string) : string :=
  match v !! key with
  | Some (x :: _) => x
  | _ => EmptyString
  end.

(** State passing: the world and the trace so far. *)
Definition Handler (A : Type) : Type :=
  World -> list Event -> A * World * list Event.

Definition ret {A} (a : A) : Handler A := fun w tr => (a, w, tr).

Definition bind {A B} (m : Handler A) (k : A -> Handler B) : Handler B :=
  fun w tr => let '(a, w', tr') := m w tr in k a w' tr'.

Definition emit (e : Event) : Handler unit := fun w tr => (tt, w, tr ++ [e]).

Declare Scope handler_scope.
Delimit Scope handler_scope with handler.
Notation "'let*' x ':=' m 'in' k" := (bind m (fun x => k))
  (at level 10, x name, m at level 100, k at level 200) : handler_scope.
Local Open Scope handler_scope.

(** [_, err := os.Stat(path)]; the result is [err == nil]. *)
Definition os_Stat (path : string) : Handler bool :=
  fun w tr => (bool_decide (is_Some (files w !! path)), w, tr ++ [EvStat path]).

(** [os.ReadFile(path)]; [None] is a non-nil error.  The only error of the
    model is a missing file. *)
Definition os_ReadFile (path : string) : Handler (option string) :=
  fun w tr => (files w !! path, w, tr ++ [EvReadFile path]).

(** [os.WriteFile(path, data, 0o600)]; the result is [err == nil].  The only
    error of the model is a volume that refuses the write before anything is
    created. *)
Definition os_WriteFile (path data : string) : Handler bool :=
  fun w tr =>
    if readOnly w then (false, w, tr ++ [EvWriteFile path data])
    else (true, mkWorld (<[path := data]> (files w)) (readOnly w),
          tr ++ [EvWriteFile path data]).

(** [r.URL.Query().Get(key)]. *)
Definition Query_Get (r : Request) (key : string) : Handler string :=
  let* _ := emit (EvQueryGet key) in ret (Values_Get (query r) key).

Definition log_Printf (what : string) : Handler unit := emit (EvLog what).

(** [http.Error(w, msg, code)]: the status and the message followed by a
    newline. *)
Definition http_Error (msg : string) (code : Z) : Handler Response :=
  ret (mkResponse code (msg +:+ GoStrings.nl)).

(** The library collaborators, opaque to the program:
    [filepath.Join], [qrcode.Encode(_, qrcode.Medium, 256)] ([None] is a
    non-nil error, in which case the returned slice is nil),
    [base64.StdEncoding.EncodeToString], and the execution of the page
    template on a config text and a base64 image, giving the bytes written
    to the response. *)
Class Collaborators : Type := {
  filepath_Join : list string -> string;
  qrcode_Encode : string -> option string;
  base64_EncodeToString : string -> string;
  Page_Execute : string -> string -> string
}.

Definition qr_Encode `{Collaborators} (content : string) : Handler (option string) :=
  let* _ := emit (EvEncode content) in ret (qrcode_Encode content).

(** Executing the template writes the page; with no earlier [WriteHeader]
    the status is 200.  An execution error is at most logged. *)
Definition template_Execute `{Collaborators} (config qrBase64 : string)
    : Handler Response :=
  let* _ := emit (EvExecute config qrBase64) in
  ret (mkResponse 200 (Page_Execute config qrBase64)).

Definition run {A} (h : Handler A) (w : World) : A * World * list Event :=
  h w [].

Definition response {A} (x : A * World * list Event) : A := x.1.1.
Definition world_after {A} (x : A * World * list Event) : World := x.1.2.
Definition trace {A} (x : A * World * list Event) : list Event := x.2.

End Http.

(** ** internal/config/config.go *)

Module Config.
Import Http.

Record Config : Type := mkConfig {
  Port : string;
  BootstrapToken : string;
  PeerName : string;
  ConfigDir : string;
  WGInterface : string;
  EndpointHost : string;
  EndpointPort : string
}.

(** [os.Getenv]: the value, [""] when the variable is unset. *)
Definition os_Getenv (env : gmap string string) (key : string) : string :=
  default EmptyString (env !! key).

Definition Getenv (env : gmap string string) (key def : string) : string :=
  let v := os_Getenv env key in
  if negb (String.eqb v "") then v else def.

Definition Load (env : gmap string string) : Config :=
  let peer := Getenv env "BOOTSTRAP_PEER_NAME" "peer1" in
  let configDir := "/config" in
  {| Port := Getenv env "BOOTSTRAP_PORT" "8081";
     BootstrapToken := os_Getenv env "BOOTSTRAP_TOKEN";
     PeerName := peer;
     ConfigDir := configDir;
     WGInterface := Getenv env "WG_INTERFACE" "wg0";
     EndpointHost := os_Getenv env "FLY_APP_NAME";
     EndpointPort :=
       Getenv env "BOOTSTRAP_ENDPOINT_PORT" (Getenv env "SERVERPORT" "51820") |}.

Definition PeerConfigPath `{Collaborators} (c : Config) : string :=
  filepath_Join [ConfigDir c; PeerName c; PeerName c +:+ ".conf"].

Definition BootstrapDonePath `{Collaborators} (c : Config) : string :=
  filepath_Join [ConfigDir c; "bootstrap_done"].

End Config.

(** ** internal/bootstrap/server.go: the /bootstrap handler *)

Module Bootstrap.
Import GoStrings Http Config.
Local Open Scope handler_scope.

Record Server : Type := mkServer { cfg : Config }.

Definition NewServer (c : Config) : Server := mkServer c.

Definition rewriteEndpoint (s : Server) (conf appName port : string) : string :=
  Endpoint.rewriteEndpoint conf appName port.

Section Handlers.
Context `{Collaborators}.

(** [now] is [time.Now().Format(time.RFC3339)] at the time of the request. *)
Definition bootstrap (s : Server) (r : Request) (now : string)
    : Handler Response :=
  let* done := os_Stat (BootstrapDonePath (cfg s)) in
  if done then http_Error "bootstrap already completed" 410
  else
    let* refused :=
      (if negb (String.eqb (BootstrapToken (cfg s)) "") then
         let* token := Query_Get r "token" in
         ret (negb (String.eqb token (BootstrapToken (cfg s))))
       else ret false) in
    if refused then http_Error "unauthorized" 401
    else
      let* confBytes := os_ReadFile (PeerConfigPath (cfg s)) in
      match confBytes with
      | None => http_Error "config not ready" 503
      | Some confBytes =>
          let confStr :=
            rewriteEndpoint s confBytes
              (EndpointHost (cfg s)) (EndpointPort (cfg s)) in
          let* qr := qr_Encode confStr in
          let qrPNG := default EmptyString qr in
          let qrBase64 := base64_EncodeToString qrPNG in
          let* _ := os_WriteFile (BootstrapDonePath (cfg s)) now in
          template_Execute confStr qrBase64
      end.

Definition healthz (s : Server) : Handler Response :=
  let* ready := os_Stat (PeerConfigPath (cfg s)) in
  if ready then ret (mkResponse 200 "ok")
  else http_Error "config not ready" 503.

End Handlers.
End Bootstrap.

(** ** cmd/bootstrap-http/main.go: the stand-alone /bootstrap handler *)

Module Main.
Import GoStrings Http.
Local Open Scope handler_scope.

Definition configDir : string := "/config".
Definition defaultPeerName : string := "peer1".

Definition getenv (env : gmap string string) (key def : string) : string :=
  let v := Config.os_Getenv env key in
  if negb (String.eqb v "") then v else def.

(** The local variables of [main] that the handler closures capture. *)
Record Locals : Type := mkLocals {
  bootstrapToken : string;
  confPath : string;
  donePath : string;
  endpointHost : string;
  endpointPort : string
}.

Definition rewriteEndpoint (conf appName port : string) : string :=
  Endpoint.rewriteEndpoint conf appName port.

Section Handlers.
Context `{Collaborators}.

Definition main_locals (env : gmap string string) : Locals :=
  let peerName := getenv env "BOOTSTRAP_PEER_NAME" defaultPeerName in
  {| bootstrapToken := Config.os_Getenv env "BOOTSTRAP_TOKEN";
     confPath := filepath_Join [configDir; peerName; peerName +:+ ".conf"];
     donePath := filepath_Join [configDir; "bootstrap_done"];
     endpointHost := Config.os_Getenv env "FLY_APP_NAME";
     endpointPort :=
       getenv env "BOOTSTRAP_ENDPOINT_PORT" (getenv env "SERVERPORT" "51820") |}.

Definition fileExists (path : string) : Handler bool := os_Stat path.

Definition bootstrap (m : Locals) (r : Request) (now : string)
    : Handler Response :=
  let* done := fileExists (donePath m) in
  if done then http_Error "bootstrap already completed" 410
  else
    let* refusal :=
      (if negb (String.eqb (bootstrapToken m) "") then
         let* token := Query_Get r "token" in
         if String.eqb token "" then ret (Some ("missing token", 401))
         else if negb (String.eqb token (bootstrapToken m))
              then ret (Some ("invalid token", 403))
              else ret None
       else ret None) in
    match refusal with
    | Some (msg, code) => http_Error msg code
    | None =>
        let* confBytes := os_ReadFile (confPath m) in
        match confBytes with
        | None =>
            let* _ := log_Printf "read conf" in
            http_Error "config not ready" 503
        | Some confBytes =>
            let confStr :=
              rewriteEndpoint confBytes (endpointHost m) (endpointPort m) in
            let* qr := qr_Encode confStr in
            match qr with
            | None =>
                let* _ := log_Printf "qr encode" in
                http_Error "failed to generate qr" 500
            | Some qrPNG =>
                let qrBase64 := base64_EncodeToString qrPNG in
                let* written := os_WriteFile (donePath m) now in
                if negb written then
                  let* _ := log_Printf "write done" in
                  http_Error "failed to finalize bootstrap" 500
                else template_Execute confStr qrBase64
            end
        end
    end.

End Handlers.
End Main.

(** ** internal/bootstrap/server.go: the keepalive loop

    [time.Duration] is a count of nanoseconds; instants are nanoseconds on the
    process's monotonic clock.  The loop only compares durations, so they are
    plain integers here.  The text of the log lines is not modelled, only
    which line is written and the values it reports. *)

Module Keepalive.
Import GoStrings.

Definition Duration : Type := Z.
Definition Time : Type := Z.

Definition Second : Duration := 1000000000.
Definition Minute : Duration := 60 * Second.

Definition startupWindow : Duration := 2 * Minute.
Definition maxIdle : Duration := 5 * Minute.
Definition interval : Duration := 30 * Second.

(** What [getWireGuardIdleDuration(wgInterface)] returns:
    [(time.Duration, bool, error)], the error being [None] for nil. *)
Record WgStatus : Type := mkWgStatus {
  wgIdle : Duration;
  wgNoHandshake : bool;
  wgErr : option string
}.

(** What the environment supplies to one iteration of the loop: the clock
    after the sleep, the answer of the WireGuard query (consulted only after
    the startup window) and whether [client.Get(url)] succeeds. *)
Record Tick : Type := mkTick {
  clock : Time;
  wg : WgStatus;
  pingOk : bool
}.

(** The local variables [lastIdle], [connected] and [connectedSince]. *)
Record Tracker : Type := mkTracker {
  lastIdle : Duration;
  connected : bool;
  connectedSince : Time
}.

Inductive Event : Type :=
| Sleep (d : Duration)
| LogStart (url : string)
| LogStartupTick
| LogPollError (err : string)
| LogNeverHandshakeSession (session : Duration)
| LogNeverHandshake
| LogHandshakeReset (previous idle : Duration)
| LogDisconnectedSession (idle session : Duration)
| LogDisconnected (idle : Duration)
| LogSessionStart (idle : Duration) (since : Time)
| LogConnected (idle session : Duration)
| Ping (url : string)
| LogPingFailed.

(** How an iteration ends: the loop goes round again, or the function
    returns. *)
Inductive Flow : Type :=
| Next (st : Tracker)
| Return.

Definition isPing (e : Event) : bool :=
  match e with Ping _ => true | _ => false end.

(** The tail of an iteration: [client.Get(url)], a log line on failure. *)
Definition sendPing (url : string) (t : Tick) : list Event :=
  if pingOk t then [Ping url] else [Ping url; LogPingFailed].

(** One iteration of [for { ... }], started at instant [start]. *)
Definition iteration (url : string) (start : Time) (st : Tracker) (t : Tick)
    : Flow * list Event :=
  let since x := clock t - x in
  if since start <=? startupWindow then
    (Next st, [Sleep interval; LogStartupTick] ++ sendPing url t)
  else
    match wgErr (wg t) with
    | Some err =>
        (Next st, [Sleep interval; LogPollError err] ++ sendPing url t)
    | None =>
        let idle := wgIdle (wg t) in
        if wgNoHandshake (wg t) then
          if connected st then
            (Return,
             [Sleep interval; LogNeverHandshakeSession (since (connectedSince st))])
          else (Return, [Sleep interval; LogNeverHandshake])
        else
          let reset :=
            if (0 <=? lastIdle st) && (idle <? lastIdle st)
            then [LogHandshakeReset (lastIdle st) idle] else [] in
          let st1 := mkTracker idle (connected st) (connectedSince st) in
          if maxIdle <? idle then
            if connected st1 then
              (Return,
               [Sleep interval] ++ reset ++
               [LogDisconnectedSession idle (since (connectedSince st1))])
            else
              (Return, [Sleep interval] ++ reset ++ [LogDisconnected idle])
          else if negb (connected st1) then
            let st2 := mkTracker idle true (clock t) in
            (Next st2,
             [Sleep interval] ++ reset ++ [LogSessionStart idle (clock t)]
             ++ sendPing url t)
          else
            (Next st1,
             [Sleep interval] ++ reset ++
             [LogConnected idle (since (connectedSince st1))]
             ++ sendPing url t)
    end.

(** The outcome of running the loop against the first few answers of the
    environment: still running in some state, or returned. *)
Inductive Outcome : Type :=
| Running (st : Tracker)
| Stopped.

Fixpoint loopFrom (url : string) (start : Time) (st : Tracker)
    (ticks : list Tick) : Outcome * list Event :=
  match ticks with
  | [] => (Running st, [])
  | t :: ticks' =>
      match iteration url start st t with
      | (Return, evs) => (Stopped, evs)
      | (Next st', evs) =>
          let '(out, evs') := loopFrom url start st' ticks' in
          (out, evs ++ evs')
      end
  end.

Definition outcomeOf (f : Flow) : Outcome :=
  match f with
  | Next st => Running st
  | Return => Stopped
  end.

(** The number of pings in a stretch of the trace. *)
Definition pings (evs : list Event) : nat :=
  length (filter (fun e => isPing e = true) evs).

(** [var lastIdle time.Duration = -1; var connected bool;
    var connectedSince time.Time]. *)
Definition initial : Tracker := mkTracker (-1) false 0.

(** What the loop, started at instant [start], keeps true of its local
    variables. *)
Definition tracked (start : Time) (st : Tracker) : Prop :=
  lastIdle st <= maxIdle
  /\ (connected st = false -> st = initial)
  /\ (connected st = true -> startupWindow < connectedSince st - start).

(** [keepaliveLoop(appName)], started at instant [start]. *)
Definition keepaliveLoop (appName : string) (start : Time) (ticks : list Tick)
    : Outcome * list Event :=
  let url := "https://" +:+ appName +:+ ".fly.dev" in
  let '(out, evs) := loopFrom url start initial ticks in
  (out, LogStart url :: evs).

End Keepalive.

(** ** internal/bootstrap/server.go: reading the handshake times

    [exec.Command("wg", "show", iface, "latest-handshakes").Output()] and
    [time.Since(time.Unix(ts, 0))] are collaborators: the first is given by
    its result (the output, or an error), the second by a function from the
    timestamp to the elapsed time. *)

Module Wireguard.
Import GoStrings GoStrconv Keepalive.

(** What one line contributes: the timestamp in its second field, when the
    line has exactly two fields and the second parses. *)
Definition handshakeOf (line : string) : option Z :=
  match Fields line with
  | [_; field] =>
      match ParseInt field with
      | Parsed ts => Some ts
      | _ => None
      end
  | _ => None
  end.

(** [for _, line := range lines { ... }], with [lastHandshake] so far. *)
Fixpoint scanLines (lines : list string) (lastHandshake : Z) : Z :=
  match lines with
  | [] => lastHandshake
  | line :: lines' =>
      match Fields line with
      | [_; field] =>
          match ParseInt field with
          | Parsed ts =>
              if lastHandshake <? ts then scanLines lines' ts
              else scanLines lines' lastHandshake
          | _ => scanLines lines' lastHandshake
          end
      | _ => scanLines lines' lastHandshake
      end
  end.

Definition latestHandshake (out : string) : Z :=
  scanLines (Split (TrimSpace out) nl) 0.

Definition getWireGuardIdleDuration (sinceUnix : Z -> Duration)
    (output : string + string) : WgStatus :=
  match output with
  | inr err => mkWgStatus 0 false (Some err)
  | inl out =>
      let lastHandshake := latestHandshake out in
      if lastHandshake =? 0 then mkWgStatus 0 true None
      else mkWgStatus (sinceUnix lastHandshake) false None
  end.

(** What [wg show <iface> latest-handshakes] prints: one line per peer, the
    public key, a tab, the time of the latest handshake in decimal (0 when
    there has been none), a line feed.  A timestamp is given by its decimal
    digits. *)
Definition tab : string := String (byte 9) "".

Fixpoint allPlain (s : string) : bool :=
  match s with
  | EmptyString => true
  | String c s' => Endpoint.plainByte c && allPlain s'
  end.

Definition digitChar (d : Z) : ascii := ascii_of_N (48 + Z.to_N d).

Fixpoint digitsString (ds : list Z) : string :=
  match ds with
  | [] => EmptyString
  | d :: ds' => String (digitChar d) (digitsString ds')
  end.

Definition digitsValue (ds : list Z) : Z :=
  fold_left (fun n d => 10 * n + d) ds 0.

Definition peerLine (peer : string * list Z) : string :=
  fst peer +:+ tab +:+ digitsString (snd peer).

Definition wgOutput (peers : list (string * list Z)) : string :=
  Join (map peerLine peers) nl +:+ nl.

(** A peer as [wg] prints it: a non-empty key of ASCII bytes without white
    space, and a non-empty run of decimal digits whose value fits in a
    signed 64-bit integer. *)
Definition wellFormedPeer (peer : string * list Z) : Prop :=
  fst peer <> EmptyString
  /\ allPlain (fst peer) = true
  /\ snd peer <> []
  /\ Forall (fun d => 0 <= d <= 9) (snd peer)
  /\ digitsValue (snd peer) < 2 ^ 63.

(** The largest timestamp among the peers, 0 when there is none. *)
Definition latestOf (peers : list (string * list Z)) : Z :=
  fold_left Z.max (map (fun peer => digitsValue (snd peer)) peers) 0.

(** A tick of the loop whose WireGuard answer comes from the command. *)
Definition tickOf (sinceUnix : Z -> Duration) (now : Time)
    (output : string + string) (pingOk : bool) : Tick :=
  mkTick now (getWireGuardIdleDuration sinceUnix output) pingOk.

End Wireguard.

(** ** The bootstrap gate, whichever program serves it

    The route /bootstrap is served either by [Server.bootstrap] or by the
    handler closure registered in [main].  [Gate] names the two, so that one
    statement can speak of both. *)

Module Gate.
Import GoStrings Http Config.

Inductive Gate : Type :=
| ServerGate (s : Bootstrap.Server)
| MainGate (m : Main.Locals).

Inductive BootstrapState : Type := Pending | Completed.

Section Gates.
Context `{Collaborators}.

Definition markerPath (g : Gate) : string :=
  match g with
  | ServerGate s => BootstrapDonePath (Bootstrap.cfg s)
  | MainGate m => Main.donePath m
  end.

Definition configPath (g : Gate) : string :=
  match g with
  | ServerGate s => PeerConfigPath (Bootstrap.cfg s)
  | MainGate m => Main.confPath m
  end.

Definition secretToken (g : Gate) : string :=
  match g with
  | ServerGate s => BootstrapToken (Bootstrap.cfg s)
  | MainGate m => Main.bootstrapToken m
  end.

Definition serve (g : Gate) (r : Request) (now : string) : Handler Response :=
  match g with
  | ServerGate s => Bootstrap.bootstrap s r now
  | MainGate m => Main.bootstrap m r now
  end.

(** The state is derived from the marker and never stored. *)
Definition stateOf (g : Gate) (w : World) : BootstrapState :=
  if bool_decide (is_Some (files w !! markerPath g)) then Completed else Pending.

(** A sequence of requests, each served in the world the previous one
    left behind. *)
Fixpoint serveAll (g : Gate) (w : World) (reqs : list (Request * string))
    : list (Response * list Event) * World :=
  match reqs with
  | [] => ([], w)
  | (r, now) :: reqs' =>
      let '(resp, w', tr) := run (serve g r now) w in
      let '(rest, w'') := serveAll g w' reqs' in
      ((resp, tr) :: rest, w'')
  end.

Definition isWrite (e : Event) : bool :=
  match e with EvWriteFile _ _ => true | _ => false end.

Definition isRead (e : Event) : bool :=
  match e with EvReadFile _ => true | _ => false end.

(** A request passes the token check when no secret is configured or
    the request carries the secret. *)
Definition authorised (g : Gate) (r : Request) : Prop :=
  secretToken g = EmptyString \/ Values_Get (query r) "token" = secretToken g.

Definition gone : Response :=
  mkResponse 410 ("bootstrap already completed" +:+ nl).

(** The number of requests of a sequence that were answered 200. *)
Definition servedCount (answers : list (Response * list Event)) : nat :=
  length (filter (fun a => status (fst a) = 200) answers).

(** A write can succeed: always the case for the handler of [main], which
    checks it, and the case for [Server.bootstrap] on a writable volume. *)
Definition writeChecked (g : Gate) (w : World) : Prop :=
  match g with
  | ServerGate _ => readOnly w = false
  | MainGate _ => True
  end.

(** A server and the locals of [main] set up alike. *)
Definition alike (s : Bootstrap.Server) (m : Main.Locals) : Prop :=
  BootstrapToken (Bootstrap.cfg s) = Main.bootstrapToken m
  /\ PeerConfigPath (Bootstrap.cfg s) = Main.confPath m
  /\ BootstrapDonePath (Bootstrap.cfg s) = Main.donePath m
  /\ EndpointHost (Bootstrap.cfg s) = Main.endpointHost m
  /\ EndpointPort (Bootstrap.cfg s) = Main.endpointPort m.

End Gates.
End Gate.

(** ** Concrete collaborators and inputs, for evaluating the model *)

Module Sample.
Import GoStrings Http Config.

(** Stand-ins for the opaque collaborators: paths joined with "/", an
    encoder that rejects the empty payload and payloads over 2331 bytes
    (the capacity of the largest medium-level code) and otherwise tags the
    payload, and a page that shows the image and the text. *)
#[export] Instance collaborators : Collaborators := {|
  filepath_Join := fun elems => Join elems "/";
  qrcode_Encode := fun content =>
    if (len content =? 0) || (2331 <? len content) then None
    else Some ("PNG:" +:+ content);
  base64_EncodeToString := fun data => "b64:" +:+ data;
  Page_Execute := fun config qrBase64 =>
    "<img " +:+ qrBase64 +:+ "><pre>" +:+ config +:+ "</pre>"
|}.

Definition env : gmap string string :=
  {[ "BOOTSTRAP_TOKEN" := "s3cret" ]}.

Definition server : Bootstrap.Server := Bootstrap.NewServer (Config.Load env).
Definition locals : Main.Locals := Main.main_locals env.

Definition peerConf : string :=
  "[Peer]" +:+ nl +:+ "Endpoint = 2a02:1234::1:51820" +:+ nl.

(** A fresh volume: the peer configuration is there, the marker is not. *)
Definition fresh : World :=
  mkWorld {[ "/config/peer1/peer1.conf" := peerConf ]} false.

(** The same volume, mounted read-only. *)
Definition frozen : World := mkWorld (files fresh) true.

(** The volume before the peer configuration has been generated. *)
Definition bare : World := mkWorld ∅ false.

(** A volume whose peer configuration is an empty file. *)
Definition blank : World :=
  mkWorld {[ "/config/peer1/peer1.conf" := EmptyString ]} false.

Definition completed : World :=
  mkWorld (<[ "/config/bootstrap_done" := "2025-01-01T00:00:00Z" ]> (files fresh))
          false.

Definition noToken : Request := mkRequest ∅.
Definition withToken (t : string) : Request :=
  mkRequest {[ "token" := [t] ]}.

Definition noon : string := "2025-01-01T12:00:00Z".
Definition evening : string := "2025-01-01T20:00:00Z".

Fixpoint padding (n : nat) : string :=
  match n with
  | O => EmptyString
  | S k => String "#"%char (padding k)
  end.

(** A peer configuration too long for a medium-level QR code. *)
Definition longConf : string :=
  "[Peer]" +:+ nl +:+ "# " +:+ padding 2400 +:+ nl
  +:+ "Endpoint = 2a02:1234::1:51820" +:+ nl.

Definition crowded : World :=
  mkWorld {[ "/config/peer1/peer1.conf" := longConf ]} false.

(** Four answers of the environment to the keepalive loop, started at
    instant 0: a tick inside the startup window, a tick with a recent
    handshake, a tick whose WireGuard query fails, and a tick with the peers
    idle for more than five minutes. *)
Definition warmup : Keepalive.Tick :=
  Keepalive.mkTick (30 * Keepalive.Second)
    (Keepalive.mkWgStatus 0 true None) true.

Definition active : Keepalive.Tick :=
  Keepalive.mkTick (150 * Keepalive.Second)
    (Keepalive.mkWgStatus (10 * Keepalive.Second) false None) false.

Definition failing : Keepalive.Tick :=
  Keepalive.mkTick (180 * Keepalive.Second)
    (Keepalive.mkWgStatus 0 false (Some "exit status 1")) true.

Definition idle : Keepalive.Tick :=
  Keepalive.mkTick (210 * Keepalive.Second)
    (Keepalive.mkWgStatus (301 * Keepalive.Second) false None) true.

Definition wake : string := "https://myvpn.fly.dev".

End Sample.

(** * Properties of the bootstrap gate *)

Section GateProperties.
Import GoStrings Http Config Gate.
Context `{Collaborators}.

Ltac reduce_handler := cbv beta iota zeta; cbn [negb app fst snd].

Ltac step_handler :=
  unfold run, serve, response, world_after, trace, gone,
    Bootstrap.bootstrap, Main.bootstrap, Main.fileExists,
    Bootstrap.rewriteEndpoint, Main.rewriteEndpoint,
    os_Stat, os_ReadFile, os_WriteFile, Query_Get,
    qr_Encode, log_Printf, template_Execute, http_Error;
  unfold bind, ret, emit;
  cbn [markerPath configPath secretToken] in *;
  reduce_handler.

Lemma stat_present (w : World) (path : string) :
  is_Some (files w !! path) -> bool_decide (is_Some (files w !! path)) = true.
Proof. intros Hs. now apply bool_decide_eq_true_2. Qed.

Lemma stat_absent (w : World) (path : string) :
  files w !! path = None -> bool_decide (is_Some (files w !! path)) = false.
Proof.
  intros Hn. apply bool_decide_eq_false_2. rewrite Hn. apply is_Some_None.
Qed.

Lemma eqb_empty_false (s : string) :
  s <> EmptyString -> String.eqb s "" = false.
Proof. intros Hs. now apply String.eqb_neq. Qed.

(** Once the marker exists a single request is answered 410 after the
    marker check alone. *)
Lemma serve_completed (g : Gate) (w : World) (r : Request) (now : string) :
  is_Some (files w !! markerPath g) ->
  run (serve g r now) w = (gone, w, [EvStat (markerPath g)]).
Proof.
  intros Hdone. destruct g as [s | m]; step_handler;
    rewrite (stat_present _ _ Hdone); reflexivity.
Qed.

(** A request refused for its token: the trace ends after the query. *)
Lemma serve_refused (g : Gate) (w : World) (r : Request) (now : string) :
  secretToken g <> EmptyString ->
  files w !! markerPath g = None ->
  Values_Get (query r) "token" <> secretToken g ->
  exists resp,
    run (serve g r now) w = (resp, w, [EvStat (markerPath g); EvQueryGet "token"])
    /\ (status resp = 401 \/ status resp = 403).
Proof.
  intros Hsecret Hpending Hbad.
  apply String.eqb_neq in Hbad.
  destruct g as [s | m]; step_handler;
    rewrite (stat_absent _ _ Hpending), (eqb_empty_false _ Hsecret);
    reduce_handler.
  - rewrite Hbad. reduce_handler.
    eexists; split; [reflexivity | left; reflexivity].
  - destruct (String.eqb (Values_Get (query r) "token") "") eqn:Hempty;
      reduce_handler.
    + eexists; split; [reflexivity | left; reflexivity].
    + rewrite Hbad. reduce_handler.
      eexists; split; [reflexivity | right; reflexivity].
Qed.

(** What the token check computes for an authorised request. *)
Lemma token_check_passes (g : Gate) (r : Request) :
  authorised g r ->
  String.eqb (secretToken g) "" = true \/
  (String.eqb (secretToken g) "" = false /\
   String.eqb (Values_Get (query r) "token") (secretToken g) = true /\
   String.eqb (Values_Get (query r) "token") "" = false).
Proof.
  intros [Hnone | Heq].
  - left. now apply String.eqb_eq.
  - destruct (String.eqb (secretToken g) "") eqn:Hs; [now left | right].
    split; [reflexivity | split].
    + now apply String.eqb_eq.
    + rewrite Heq. exact Hs.
Qed.

Ltac pass_gate Hpending Hadm :=
  let Hs := fresh "Hs" in
  let Heq := fresh "Heq" in
  let Hne := fresh "Hne" in
  destruct (token_check_passes _ _ Hadm) as [Hs | (Hs & Heq & Hne)];
  step_handler;
  rewrite (stat_absent _ _ Hpending), Hs; reduce_handler;
  rewrite ?Heq, ?Hne; reduce_handler.

Lemma serve_unreadable (g : Gate) (w : World) (r : Request) (now : string) :
  files w !! markerPath g = None ->
  authorised g r ->
  files w !! configPath g = None ->
  response (run (serve g r now) w) = mkResponse 503 ("config not ready" +:+ nl)
  /\ world_after (run (serve g r now) w) = w
  /\ In (EvReadFile (configPath g)) (trace (run (serve g r now) w))
  /\ forallb (fun e => negb (isWrite e)) (trace (run (serve g r now) w)) = true.
Proof.
  intros Hpending Hadm Hmissing.
  destruct g as [s | m]; pass_gate Hpending Hadm;
    rewrite Hmissing; reduce_handler;
    repeat split; try reflexivity; cbn; tauto.
Qed.

Lemma string_eq_cases (a b : string) :
  (a = b /\ String.eqb a b = true) \/ (a <> b /\ String.eqb a b = false).
Proof.
  destruct (String.eqb a b) eqn:E.
  - left. split; [now apply String.eqb_eq | reflexivity].
  - right. split; [now apply String.eqb_neq | reflexivity].
Qed.

(** Every request is in one of three situations: the marker exists, the
    token is refused, or the request passes the gate. *)
Lemma gate_cases (g : Gate) (w : World) (r : Request) :
  is_Some (files w !! markerPath g)
  \/ (files w !! markerPath g = None /\ secretToken g <> EmptyString
      /\ Values_Get (query r) "token" <> secretToken g)
  \/ (files w !! markerPath g = None /\ authorised g r).
Proof.
  destruct (files w !! markerPath g) as [x |] eqn:Hm; [left; eauto |].
  right.
  destruct (string_eq_cases (secretToken g) "") as [[He _] | [Hne _]].
  - right. split; [reflexivity | now left].
  - destruct (string_eq_cases (Values_Get (query r) "token") (secretToken g))
      as [[He _] | [Hbad _]].
    + right. split; [reflexivity | now right].
    + left. auto.
Qed.

(** C1. Once the done marker exists, every later request to the bootstrap
    path, whatever token it carries, is answered with the terminal 410
    "bootstrap already completed" response; the only effect of serving it
    is the marker check, so no token check, config read, encoding or marker
    write takes place, and the world is left as it was.  This holds for
    [Server.bootstrap] and for the handler of [main]. *)
Theorem completed_gate_refuses_all
    (g : Gate) (w : World) (reqs : list (Request * string)) :
  is_Some (files w !! markerPath g) ->
  serveAll g w reqs = (map (fun _ => (gone, [EvStat (markerPath g)])) reqs, w).
Proof.
  intros Hdone. induction reqs as [| [r now] reqs IH]; [reflexivity |].
  cbn [serveAll map]. rewrite (serve_completed g w r now Hdone).
  rewrite IH. reflexivity.
Qed.

(** C6. When the peer configuration cannot be read, no request completes
    the bootstrap: the world is unchanged, no marker write is attempted,
    and a request that gets as far as the read (the marker is absent and
    the token check passes) is answered 503 "config not ready". *)
Theorem failed_load_leaves_pending
    (g : Gate) (w : World) (r : Request) (now : string) :
  files w !! configPath g = None ->
  world_after (run (serve g r now) w) = w
  /\ stateOf g (world_after (run (serve g r now) w)) = stateOf g w
  /\ forallb (fun e => negb (isWrite e)) (trace (run (serve g r now) w)) = true
  /\ (In (EvReadFile (configPath g)) (trace (run (serve g r now) w)) ->
      response (run (serve g r now) w)
      = mkResponse 503 ("config not ready" +:+ nl))
  /\ (files w !! markerPath g = None -> authorised g r ->
      In (EvReadFile (configPath g)) (trace (run (serve g r now) w))).
Proof.
  intros Hmissing.
  assert (Hw : world_after (run (serve g r now) w) = w
               /\ forallb (fun e => negb (isWrite e))
                    (trace (run (serve g r now) w)) = true
               /\ (In (EvReadFile (configPath g)) (trace (run (serve g r now) w)) ->
                   response (run (serve g r now) w)
                   = mkResponse 503 ("config not ready" +:+ nl))).
  { destruct (gate_cases g w r) as [Hdone | [(Hp & Hs & Hbad) | (Hp & Hok)]].
    - rewrite (serve_completed g w r now Hdone).
      repeat split. cbn. intros [Hin | []]. discriminate Hin.
    - destruct (serve_refused g w r now Hs Hp Hbad) as (resp & Hrun & _).
      rewrite Hrun. repeat split. cbn. intros [Hin | [Hin | []]]; discriminate Hin.
    - destruct (serve_unreadable g w r now Hp Hok Hmissing) as (Hr & Hwa & _ & Hnw).
      auto. }
  destruct Hw as (Hwa & Hnw & Hresp).
  repeat split; auto.
  - now rewrite Hwa.
  - intros Hp Hok.
    now destruct (serve_unreadable g w r now Hp Hok Hmissing) as (_ & _ & Hin & _).
Qed.

(** C7. With a secret token configured and the marker absent, a request
    whose token is missing or wrong is turned away after the marker check
    and the token lookup: the trace holds no read of the peer configuration
    (nor any other file access), and the world is unchanged. *)
Theorem bad_token_skips_config_read
    (g : Gate) (w : World) (r : Request) (now : string) :
  secretToken g <> EmptyString ->
  files w !! markerPath g = None ->
  Values_Get (query r) "token" <> secretToken g ->
  trace (run (serve g r now) w) = [EvStat (markerPath g); EvQueryGet "token"]
  /\ forallb (fun e => negb (isRead e)) (trace (run (serve g r now) w)) = true
  /\ world_after (run (serve g r now) w) = w.
Proof.
  intros Hs Hp Hbad.
  destruct (serve_refused g w r now Hs Hp Hbad) as (resp & Hrun & _).
  rewrite Hrun. repeat split.
Qed.

(** The handler of [main] keeps the two token failures apart. *)
Lemma main_token_statuses (m : Main.Locals) (w : World) (r : Request) (now : string) :
  Main.bootstrapToken m <> EmptyString ->
  files w !! Main.donePath m = None ->
  (Values_Get (query r) "token" = EmptyString ->
   response (run (Main.bootstrap m r now) w)
   = mkResponse 401 ("missing token" +:+ nl))
  /\ (Values_Get (query r) "token" <> EmptyString ->
      Values_Get (query r) "token" <> Main.bootstrapToken m ->
      response (run (Main.bootstrap m r now) w)
      = mkResponse 403 ("invalid token" +:+ nl)).
Proof.
  intros Hs Hp. split.
  - intros Hempty. step_handler.
    rewrite (stat_absent _ _ Hp), (eqb_empty_false _ Hs), Hempty.
    reflexivity.
  - intros Hne Hbad. step_handler.
    apply String.eqb_neq in Hne, Hbad.
    rewrite (stat_absent _ _ Hp), (eqb_empty_false _ Hs), Hne. reduce_handler.
    rewrite Hbad. reflexivity.
Qed.

(** [Server.bootstrap] answers every token failure alike. *)
Lemma server_token_status (s : Bootstrap.Server) (w : World) (r : Request)
    (now : string) :
  BootstrapToken (Bootstrap.cfg s) <> EmptyString ->
  files w !! BootstrapDonePath (Bootstrap.cfg s) = None ->
  Values_Get (query r) "token" <> BootstrapToken (Bootstrap.cfg s) ->
  response (run (Bootstrap.bootstrap s r now) w)
  = mkResponse 401 ("unauthorized" +:+ nl).
Proof.
  intros Hs Hp Hbad. step_handler. apply String.eqb_neq in Hbad.
  rewrite (stat_absent _ _ Hp), (eqb_empty_false _ Hs). reduce_handler.
  rewrite Hbad. reflexivity.
Qed.

(** In [main], a failed encoding ends the request with 500 before the marker
    write. *)
Lemma main_encoding_failure (m : Main.Locals) (w : World) (r : Request)
    (now conf : string) :
  files w !! Main.donePath m = None ->
  authorised (MainGate m) r ->
  files w !! Main.confPath m = Some conf ->
  qrcode_Encode
    (Endpoint.rewriteEndpoint conf (Main.endpointHost m) (Main.endpointPort m))
  = None ->
  response (run (Main.bootstrap m r now) w)
  = mkResponse 500 ("failed to generate qr" +:+ nl)
  /\ world_after (run (Main.bootstrap m r now) w) = w
  /\ forallb (fun e => negb (isWrite e)) (trace (run (Main.bootstrap m r now) w))
     = true.
Proof.
  intros Hp Hok Hconf Hqr. pass_gate Hp Hok;
    rewrite Hconf; reduce_handler; rewrite Hqr; repeat split.
Qed.

(** In [Server.bootstrap] the encoding error is dropped: the marker is written
    and the page is served with the encoding of an empty image. *)
Lemma server_encoding_failure (s : Bootstrap.Server) (w : World) (r : Request)
    (now conf : string) :
  files w !! BootstrapDonePath (Bootstrap.cfg s) = None ->
  authorised (ServerGate s) r ->
  files w !! PeerConfigPath (Bootstrap.cfg s) = Some conf ->
  readOnly w = false ->
  qrcode_Encode
    (Endpoint.rewriteEndpoint conf
       (EndpointHost (Bootstrap.cfg s)) (EndpointPort (Bootstrap.cfg s)))
  = None ->
  response (run (Bootstrap.bootstrap s r now) w)
  = mkResponse 200
      (Page_Execute
         (Endpoint.rewriteEndpoint conf
            (EndpointHost (Bootstrap.cfg s)) (EndpointPort (Bootstrap.cfg s)))
         (base64_EncodeToString EmptyString))
  /\ files (world_after (run (Bootstrap.bootstrap s r now) w))
       !! BootstrapDonePath (Bootstrap.cfg s) = Some now.
Proof.
  intros Hp Hok Hconf Hrw Hqr. pass_gate Hp Hok;
    rewrite Hconf; reduce_handler; rewrite Hqr, Hrw; reduce_handler;
    (split; [reflexivity | cbn; apply lookup_insert_eq]).
Qed.

(** In [main], a failed marker write ends the request with 500. *)
Lemma main_marker_write_failure (m : Main.Locals) (w : World) (r : Request)
    (now conf png : string) :
  files w !! Main.donePath m = None ->
  authorised (MainGate m) r ->
  files w !! Main.confPath m = Some conf ->
  qrcode_Encode
    (Endpoint.rewriteEndpoint conf (Main.endpointHost m) (Main.endpointPort m))
  = Some png ->
  readOnly w = true ->
  response (run (Main.bootstrap m r now) w)
  = mkResponse 500 ("failed to finalize bootstrap" +:+ nl)
  /\ world_after (run (Main.bootstrap m r now) w) = w.
Proof.
  intros Hp Hok Hconf Hqr Hro. pass_gate Hp Hok;
    rewrite Hconf; reduce_handler; rewrite Hqr, Hro; repeat split.
Qed.

(** In [main], a 200 answer means the marker has just been written. *)
Lemma main_success_writes_marker (m : Main.Locals) (w : World) (r : Request)
    (now : string) :
  status (response (run (Main.bootstrap m r now) w)) = 200 ->
  files (world_after (run (Main.bootstrap m r now) w)) !! Main.donePath m
  = Some now.
Proof.
  step_handler.
  destruct (bool_decide (is_Some (files w !! Main.donePath m)));
    reduce_handler; [discriminate |].
  destruct (String.eqb (Main.bootstrapToken m) ""); reduce_handler;
    [| destruct (String.eqb (Values_Get (query r) "token") "");
       reduce_handler; [discriminate |];
       destruct (String.eqb (Values_Get (query r) "token") (Main.bootstrapToken m));
       reduce_handler; [| discriminate]];
    (destruct (files w !! Main.confPath m) as [conf |]; reduce_handler;
       [| discriminate];
     destruct (qrcode_Encode _) as [png |]; reduce_handler; [| discriminate];
     destruct (readOnly w); reduce_handler; [discriminate |];
     intros _; cbn; apply lookup_insert_eq).
Qed.

(** C10. In [Server.bootstrap] a failed write of the completion marker is
    ignored.  On a pending gate whose marker cannot be written, a request
    that passes the token check and finds the peer configuration is answered
    200 with the rendered page; the write was attempted, the world is
    unchanged, so the state is still Pending, and any later request that
    passes the token check is served the same page again. *)
Theorem server_ignores_marker_write_failure
    (s : Bootstrap.Server) (w : World) (r : Request) (now conf : string) :
  readOnly w = true ->
  files w !! BootstrapDonePath (Bootstrap.cfg s) = None ->
  authorised (ServerGate s) r ->
  files w !! PeerConfigPath (Bootstrap.cfg s) = Some conf ->
  let confStr :=
    Endpoint.rewriteEndpoint conf
      (EndpointHost (Bootstrap.cfg s)) (EndpointPort (Bootstrap.cfg s)) in
  let page :=
    mkResponse 200
      (Page_Execute confStr
         (base64_EncodeToString (default EmptyString (qrcode_Encode confStr)))) in
  let first := run (Bootstrap.bootstrap s r now) w in
  response first = page
  /\ In (EvWriteFile (BootstrapDonePath (Bootstrap.cfg s)) now) (trace first)
  /\ world_after first = w
  /\ stateOf (ServerGate s) (world_after first) = Pending
  /\ forall (r' : Request) (now' : string),
       authorised (ServerGate s) r' ->
       response (run (Bootstrap.bootstrap s r' now') (world_after first)) = page.
Proof.
  intros Hro Hp Hok Hconf confStr page first.
  assert (Hserve : forall r0 now0, authorised (ServerGate s) r0 ->
            response (run (Bootstrap.bootstrap s r0 now0) w) = page
            /\ In (EvWriteFile (BootstrapDonePath (Bootstrap.cfg s)) now0)
                 (trace (run (Bootstrap.bootstrap s r0 now0) w))
            /\ world_after (run (Bootstrap.bootstrap s r0 now0) w) = w).
  { intros r0 now0 Hok0. subst page confStr. pass_gate Hp Hok0;
      rewrite Hconf; reduce_handler; rewrite Hro; reduce_handler;
      (repeat split; cbn; tauto). }
  destruct (Hserve r now Hok) as (Hresp & Hin & Hw).
  subst first. rewrite Hw. repeat split; auto.
  - unfold stateOf. cbn [markerPath]. now rewrite (stat_absent _ _ Hp).
  - intros r' now' Hok'. now destruct (Hserve r' now' Hok') as (Hresp' & _).
Qed.

End GateProperties.

(** * The gate on concrete worlds *)

Section GateExamples.
Import GoStrings Http Config Gate Sample.

(** Three requests on a completed volume, with no token, a wrong token and
    the right token. *)
Lemma completed_gate_refuses_all_witness :
  is_Some (files completed !! markerPath (MainGate locals))
  /\ serveAll (MainGate locals) completed
       [(noToken, noon); (withToken "wrong", noon); (withToken "s3cret", evening)]
     = ([(gone, [EvStat "/config/bootstrap_done"]);
         (gone, [EvStat "/config/bootstrap_done"]);
         (gone, [EvStat "/config/bootstrap_done"])], completed).
Proof.
  assert (Hdone : is_Some (files completed !! markerPath (MainGate locals))).
  { vm_compute. eexists. reflexivity. }
  split; [exact Hdone |].
  exact (completed_gate_refuses_all (MainGate locals) completed
           [(noToken, noon); (withToken "wrong", noon); (withToken "s3cret", evening)]
           Hdone).
Defined.

(** A request with the right token before the peer configuration exists. *)
Lemma failed_load_leaves_pending_witness :
  files bare !! configPath (ServerGate server) = None
  /\ world_after (run (serve (ServerGate server) (withToken "s3cret") noon) bare)
     = bare
  /\ response (run (serve (ServerGate server) (withToken "s3cret") noon) bare)
     = mkResponse 503 ("config not ready" +:+ nl).
Proof.
  assert (Hmissing : files bare !! configPath (ServerGate server) = None)
    by (vm_compute; reflexivity).
  destruct (failed_load_leaves_pending (ServerGate server) bare
              (withToken "s3cret") noon Hmissing)
    as (Hw & _ & _ & Hresp & Hreach).
  split; [exact Hmissing | split; [exact Hw |]].
  apply Hresp, Hreach.
  - vm_compute; reflexivity.
  - right. vm_compute; reflexivity.
Defined.

(** A request without a token on a fresh volume. *)
Lemma bad_token_skips_config_read_witness :
  secretToken (MainGate locals) <> EmptyString
  /\ files fresh !! markerPath (MainGate locals) = None
  /\ Values_Get (query noToken) "token" <> secretToken (MainGate locals)
  /\ trace (run (serve (MainGate locals) noToken noon) fresh)
     = [EvStat "/config/bootstrap_done"; EvQueryGet "token"].
Proof.
  assert (Hs : secretToken (MainGate locals) <> EmptyString)
    by (vm_compute; discriminate).
  assert (Hp : files fresh !! markerPath (MainGate locals) = None)
    by (vm_compute; reflexivity).
  assert (Hbad : Values_Get (query noToken) "token" <> secretToken (MainGate locals))
    by (vm_compute; discriminate).
  repeat (split; [assumption |]).
  exact (proj1 (bad_token_skips_config_read (MainGate locals) fresh noToken noon
                  Hs Hp Hbad)).
Defined.

(** A request with the right token on a read-only volume. *)
Lemma server_ignores_marker_write_failure_witness :
  readOnly frozen = true
  /\ status (response (run (Bootstrap.bootstrap server (withToken "s3cret") noon) frozen))
     = 200
  /\ world_after (run (Bootstrap.bootstrap server (withToken "s3cret") noon) frozen)
     = frozen.
Proof.
  assert (Hp : files frozen !! BootstrapDonePath (Bootstrap.cfg server) = None)
    by (vm_compute; reflexivity).
  assert (Hok : authorised (ServerGate server) (withToken "s3cret"))
    by (right; vm_compute; reflexivity).
  assert (Hconf : files frozen !! PeerConfigPath (Bootstrap.cfg server) = Some peerConf)
    by (vm_compute; reflexivity).
  destruct (server_ignores_marker_write_failure server frozen (withToken "s3cret")
              noon peerConf eq_refl Hp Hok Hconf) as (Hresp & _ & Hw & _).
  split; [reflexivity | split; [| exact Hw]].
  rewrite Hresp. reflexivity.
Defined.

(** C2. With the secret "s3cret" configured and the marker absent, the
    request /bootstrap?token=wrong is answered 401 "unauthorized" by
    [Server.bootstrap], where the handler of [main] answers 403 "invalid
    token"; a request without a token is answered 401 by both. *)
Theorem server_wrong_token_answers_401 :
  files fresh !! markerPath (ServerGate server) = None
  /\ secretToken (ServerGate server) = "s3cret"
  /\ response (run (Bootstrap.bootstrap server (withToken "wrong") noon) fresh)
     = mkResponse 401 ("unauthorized" +:+ nl)
  /\ response (run (Main.bootstrap locals (withToken "wrong") noon) fresh)
     = mkResponse 403 ("invalid token" +:+ nl)
  /\ response (run (Bootstrap.bootstrap server noToken noon) fresh)
     = mkResponse 401 ("unauthorized" +:+ nl)
  /\ response (run (Main.bootstrap locals noToken noon) fresh)
     = mkResponse 401 ("missing token" +:+ nl).
Proof. repeat split; vm_compute; reflexivity. Qed.

(** C3. With the marker absent and a peer configuration that the encoder
    rejects, [Server.bootstrap] drops the encoding error: it writes the
    marker and answers 200, so the state becomes Completed.  The handler of
    [main] answers 500 on the same input and leaves the marker unwritten. *)
Theorem server_completes_after_failed_encoding :
  qrcode_Encode
    (Endpoint.rewriteEndpoint longConf
       (EndpointHost (Bootstrap.cfg server)) (EndpointPort (Bootstrap.cfg server)))
  = None
  /\ stateOf (ServerGate server) crowded = Pending
  /\ status (response (run (Bootstrap.bootstrap server (withToken "s3cret") noon) crowded))
     = 200
  /\ files (world_after (run (Bootstrap.bootstrap server (withToken "s3cret") noon) crowded))
       !! "/config/bootstrap_done" = Some noon
  /\ stateOf (ServerGate server)
       (world_after (run (Bootstrap.bootstrap server (withToken "s3cret") noon) crowded))
     = Completed
  /\ response (run (Main.bootstrap locals (withToken "s3cret") noon) crowded)
     = mkResponse 500 ("failed to generate qr" +:+ nl)
  /\ stateOf (MainGate locals)
       (world_after (run (Main.bootstrap locals (withToken "s3cret") noon) crowded))
     = Pending.
Proof. repeat split; vm_compute; reflexivity. Qed.

(** A fresh volume, the right token: the first request is served the page,
    the second is turned away, by either handler. *)
Lemma first_request_served_second_gone :
  map (fun x => status (fst x))
      (fst (serveAll (MainGate locals) fresh
              [(withToken "s3cret", noon); (withToken "s3cret", evening)]))
  = [200; 410]
  /\ map (fun x => status (fst x))
       (fst (serveAll (ServerGate server) fresh
               [(withToken "s3cret", noon); (withToken "s3cret", evening)]))
     = [200; 410].
Proof. split; vm_compute; reflexivity. Qed.

(** On a read-only volume [Server.bootstrap] serves the page twice, where
    the handler of [main] reports the failed write twice. *)
Lemma read_only_volume_served_twice :
  map (fun x => status (fst x))
      (fst (serveAll (ServerGate server) frozen
              [(withToken "s3cret", noon); (withToken "s3cret", evening)]))
  = [200; 200]
  /\ map (fun x => status (fst x))
       (fst (serveAll (MainGate locals) frozen
               [(withToken "s3cret", noon); (withToken "s3cret", evening)]))
     = [500; 500].
Proof. split; vm_compute; reflexivity. Qed.

End GateExamples.

(** * Properties of the keepalive loop *)

Section KeepaliveProperties.
Import GoStrings Keepalive.

Variables (url : string) (start : Time).

Lemma sendPing_pings (t : Tick) : pings (sendPing url t) = 1%nat.
Proof. unfold sendPing. destruct (pingOk t); reflexivity. Qed.

Lemma pings_app (a b : list Event) : pings (a ++ b) = (pings a + pings b)%nat.
Proof. unfold pings. now rewrite filter_app, length_app. Qed.

(** An iteration returns exactly when it runs after the startup window, the
    query succeeds, and the query reports no handshake ever or an idle time
    above the threshold. *)
Lemma iteration_returns_iff (st : Tracker) (t : Tick) :
  fst (iteration url start st t) = Return <->
  startupWindow < clock t - start
  /\ wgErr (wg t) = None
  /\ (wgNoHandshake (wg t) = true \/ maxIdle < wgIdle (wg t)).
Proof.
  unfold iteration.
  destruct (Z.leb_spec (clock t - start) startupWindow) as [Hin | Hout].
  { cbn. split; [discriminate | lia]. }
  destruct (wgErr (wg t)) as [err |].
  { cbn. split; [discriminate | intros (_ & Hn & _); discriminate]. }
  destruct (wgNoHandshake (wg t)).
  { destruct (connected st); cbn; split; auto. }
  cbn [connected].
  destruct (Z.ltb_spec maxIdle (wgIdle (wg t))) as [Hidle | Hfresh].
  { destruct (connected st); cbn; split; auto. }
  destruct (connected st); cbn; (split; [discriminate |]);
    intros (_ & _ & [Hn | Hi]); (discriminate || lia).
Qed.

(** A returning iteration sends no ping; any other sends exactly one. *)
Lemma iteration_pings (st : Tracker) (t : Tick) :
  pings (snd (iteration url start st t))
  = match fst (iteration url start st t) with
    | Return => 0%nat
    | Next _ => 1%nat
    end.
Proof.
  unfold iteration.
  destruct (clock t - start <=? startupWindow).
  { cbn [fst snd]. rewrite pings_app, sendPing_pings. reflexivity. }
  destruct (wgErr (wg t)) as [err |].
  { cbn [fst snd]. rewrite pings_app, sendPing_pings. reflexivity. }
  destruct (wgNoHandshake (wg t)).
  { destruct (connected st); reflexivity. }
  cbn [connected].
  destruct ((0 <=? lastIdle st) && (wgIdle (wg t) <? lastIdle st));
    destruct (maxIdle <? wgIdle (wg t)); destruct (connected st);
    cbn [fst snd negb]; rewrite ?pings_app, ?sendPing_pings; reflexivity.
Qed.

(** Running one more iteration after a prefix that left the loop running. *)
Lemma loopFrom_snoc (pre : list Tick) (st0 st : Tracker) (evs : list Event)
    (t : Tick) :
  loopFrom url start st0 pre = (Running st, evs) ->
  loopFrom url start st0 (pre ++ [t])
  = (outcomeOf (fst (iteration url start st t)),
     evs ++ snd (iteration url start st t)).
Proof.
  revert st0 evs. induction pre as [| t0 pre IH]; intros st0 evs Hrun.
  - cbn in Hrun. injection Hrun as -> <-. cbn [app loopFrom].
    destruct (iteration url start st t) as [[st' |] e]; cbn;
      now rewrite ?app_nil_r.
  - cbn [app loopFrom] in *.
    destruct (iteration url start st0 t0) as [[st1 |] e0]; [| discriminate].
    destruct (loopFrom url start st1 pre) as [out evs1] eqn:Hpre.
    injection Hrun as -> <-.
    rewrite (IH st1 evs1 Hpre). now rewrite app_assoc.
Qed.

(** A loop that has returned did so on some iteration it reached. *)
Lemma loop_stops_on_a_tick (ticks : list Tick) (st0 : Tracker) :
  fst (loopFrom url start st0 ticks) = Stopped ->
  exists pre t post st evs,
    ticks = pre ++ t :: post
    /\ loopFrom url start st0 pre = (Running st, evs)
    /\ fst (iteration url start st t) = Return.
Proof.
  revert st0. induction ticks as [| t0 ticks IH]; intros st0 Hstop.
  - discriminate.
  - cbn [loopFrom] in Hstop.
    destruct (iteration url start st0 t0) as [[st1 |] e0] eqn:Hit.
    + destruct (loopFrom url start st1 ticks) as [out evs1] eqn:Hrest.
      cbn in Hstop. subst out.
      destruct (IH st1) as (pre & t & post & st & evs & -> & Hpre & Hret).
      { now rewrite Hrest. }
      exists (t0 :: pre), t, post, st, (e0 ++ evs). repeat split; auto.
      cbn [loopFrom]. now rewrite Hit, Hpre.
    + exists [], t0, ticks, st0, []. repeat split. now rewrite Hit.
Qed.

(** C4. Take any iteration the loop reaches (the loop is still running after
    the ticks before it).  The loop returns on that iteration if and only if
    the startup window is over, the handshake query succeeded, and either no
    peer has ever handshaken or the idle time exceeds [maxIdle]; so, after
    the window and with a successful query, it returns exactly when one of
    the two conditions holds, and nothing else (a failed query, a failed
    ping, a drop of the idle time) ever makes it return.  On the returning
    iteration no ping is sent; on every other iteration exactly one is. *)
Theorem keepalive_returns_iff
    (st0 st : Tracker) (pre : list Tick) (evs : list Event) (t : Tick) :
  loopFrom url start st0 pre = (Running st, evs) ->
  (fst (loopFrom url start st0 (pre ++ [t])) = Stopped <->
   startupWindow < clock t - start
   /\ wgErr (wg t) = None
   /\ (wgNoHandshake (wg t) = true \/ maxIdle < wgIdle (wg t)))
  /\ exists now_evs,
       snd (loopFrom url start st0 (pre ++ [t])) = evs ++ now_evs
       /\ pings now_evs
          = match fst (loopFrom url start st0 (pre ++ [t])) with
            | Stopped => 0%nat
            | Running _ => 1%nat
            end.
Proof.
  intros Hrun. rewrite (loopFrom_snoc pre st0 st evs t Hrun). cbn [fst snd].
  split.
  - transitivity (fst (iteration url start st t) = Return);
      [| apply iteration_returns_iff].
    destruct (fst (iteration url start st t)); cbn; split; intros Hx;
      (discriminate Hx || reflexivity).
  - exists (snd (iteration url start st t)). split; [reflexivity |].
    rewrite iteration_pings.
    destruct (fst (iteration url start st t)); reflexivity.
Qed.

(** C5. On an iteration the loop reaches after the startup window, a failed
    handshake query is logged and treated as activity: the ping is sent, the
    loop keeps running, and [lastIdle], [connected] and [connectedSince] are
    what they were. *)
Theorem poll_error_keeps_alive
    (st0 st : Tracker) (pre : list Tick) (evs : list Event) (t : Tick)
    (err : string) :
  loopFrom url start st0 pre = (Running st, evs) ->
  startupWindow < clock t - start ->
  wgErr (wg t) = Some err ->
  loopFrom url start st0 (pre ++ [t])
  = (Running st, evs ++ [Sleep interval; LogPollError err] ++ sendPing url t)
  /\ In (Ping url) (sendPing url t).
Proof.
  intros Hrun Hout Herr. rewrite (loopFrom_snoc pre st0 st evs t Hrun).
  unfold iteration.
  destruct (Z.leb_spec (clock t - start) startupWindow) as [Hin | _]; [lia |].
  rewrite Herr. cbn [fst snd outcomeOf]. split; [reflexivity |].
  unfold sendPing. destruct (pingOk t); cbn; auto.
Qed.

End KeepaliveProperties.

(** * The keepalive loop on concrete ticks *)

Section KeepaliveExamples.
Import GoStrings Keepalive Sample.

(** After a startup tick, an active tick and a failed query, the idle tick
    ends the loop without a further ping. *)
Lemma keepalive_returns_iff_witness :
  fst (loopFrom wake 0 initial [warmup; active; failing]) = Running
        (mkTracker (10 * Second) true (150 * Second))
  /\ fst (loopFrom wake 0 initial ([warmup; active; failing] ++ [idle])) = Stopped
  /\ pings (snd (loopFrom wake 0 initial ([warmup; active; failing] ++ [idle])))
     = pings (snd (loopFrom wake 0 initial [warmup; active; failing])).
Proof.
  pose proof (keepalive_returns_iff wake 0 initial
                (mkTracker (10 * Second) true (150 * Second))
                [warmup; active; failing]
                (snd (loopFrom wake 0 initial [warmup; active; failing]))
                idle eq_refl) as [[_ Hstop] (now_evs & Hevs & Hpings)].
  assert (Hs : fst (loopFrom wake 0 initial ([warmup; active; failing] ++ [idle]))
               = Stopped).
  { apply Hstop. vm_compute. repeat split; right; reflexivity. }
  split; [reflexivity | split; [exact Hs |]].
  rewrite Hevs, pings_app. rewrite Hs in Hpings. rewrite Hpings. lia.
Defined.

(** After a startup tick and an active tick, the failed query leaves the
    session as it was. *)
Lemma poll_error_keeps_alive_witness :
  loopFrom wake 0 initial [warmup; active]
  = (Running (mkTracker (10 * Second) true (150 * Second)),
     snd (loopFrom wake 0 initial [warmup; active]))
  /\ startupWindow < clock failing - 0
  /\ wgErr (wg failing) = Some "exit status 1"
  /\ fst (loopFrom wake 0 initial ([warmup; active] ++ [failing]))
     = Running (mkTracker (10 * Second) true (150 * Second)).
Proof.
  assert (Hrun : loopFrom wake 0 initial [warmup; active]
                 = (Running (mkTracker (10 * Second) true (150 * Second)),
                    snd (loopFrom wake 0 initial [warmup; active])))
    by reflexivity.
  assert (Hout : startupWindow < clock failing - 0) by (vm_compute; reflexivity).
  assert (Herr : wgErr (wg failing) = Some "exit status 1") by reflexivity.
  repeat (split; [assumption |]).
  destruct (poll_error_keeps_alive wake 0 initial _ _ _ failing _ Hrun Hout Herr)
    as [Hloop _].
  rewrite Hloop. reflexivity.
Defined.

End KeepaliveExamples.

(** * Facts about the string functions *)

Section StringFacts.
Import GoStrings Endpoint.

Lemma append_cons (c : ascii) (a b : string) :
  String c a +:+ b = String c (a +:+ b).
Proof. reflexivity. Qed.

Lemma append_nil (b : string) : "" +:+ b = b.
Proof. reflexivity. Qed.

Lemma length_append (a b : string) :
  String.length (a +:+ b) = (String.length a + String.length b)%nat.
Proof.
  induction a as [| c a IH]; [reflexivity |].
  rewrite append_cons. cbn [String.length]. now rewrite IH.
Qed.

Lemma append_assoc (a b c : string) : (a +:+ b) +:+ c = a +:+ b +:+ c.
Proof.
  induction a as [| x a IH]; [reflexivity |].
  rewrite !append_cons. now rewrite IH.
Qed.

Lemma append_empty_r (a : string) : a +:+ "" = a.
Proof.
  induction a as [| x a IH]; [reflexivity |].
  rewrite append_cons. now rewrite IH.
Qed.

Lemma substring_prefix (a b : string) :
  String.substring 0 (String.length a) (a +:+ b) = a.
Proof.
  induction a as [| c a IH].
  - rewrite append_nil. destruct b; reflexivity.
  - rewrite append_cons. cbn [String.length String.substring]. now rewrite IH.
Qed.

Lemma inCutset_append (c : ascii) (a b : string) :
  inCutset c (a +:+ b) = inCutset c a || inCutset c b.
Proof.
  induction a as [| x a IH]; [reflexivity |].
  rewrite append_cons. cbn [inCutset]. rewrite IH. now rewrite orb_assoc.
Qed.

Lemma inCutset_substring (c : ascii) (s : string) (n m : nat) :
  inCutset c s = false -> inCutset c (String.substring n m s) = false.
Proof.
  revert n m. induction s as [| x s IH]; intros n m Hs.
  - destruct n, m; reflexivity.
  - cbn in Hs. apply orb_false_iff in Hs as [Hx Hs].
    destruct n as [| n]; cbn.
    + destruct m as [| m]; cbn; [reflexivity |].
      rewrite Hx. now apply IH.
    + now apply IH.
Qed.

Lemma inCutset_slice (c : ascii) (s : string) (lo hi : Z) :
  inCutset c s = false -> inCutset c (slice s lo hi) = false.
Proof. apply inCutset_substring. Qed.

(** *** TrimLeft and the indentation *)

Lemma takeCutset_TrimLeft (s cutset : string) :
  s = takeCutset s cutset +:+ TrimLeft s cutset.
Proof.
  induction s as [| c s IH]; [reflexivity |].
  cbn [takeCutset TrimLeft].
  destruct (inCutset c cutset); [| reflexivity].
  rewrite append_cons. now rewrite <- IH.
Qed.

Lemma takeCutset_within (c : ascii) (s cutset : string) :
  inCutset c (takeCutset s cutset) = true -> inCutset c cutset = true.
Proof.
  induction s as [| x s IH]; cbn; [discriminate |].
  destruct (inCutset x cutset) eqn:Hx; cbn; [| discriminate].
  intros Hc. apply orb_true_iff in Hc as [Heq | Hin]; [| now apply IH].
  apply Ascii.eqb_eq in Heq. now subst.
Qed.

Lemma TrimLeft_start (s cutset : string) :
  startsInCutset (TrimLeft s cutset) cutset = false.
Proof.
  induction s as [| c s IH]; cbn; [reflexivity |].
  destruct (inCutset c cutset) eqn:Hc; [exact IH | exact Hc].
Qed.

Lemma TrimLeft_oneLine (c : ascii) (s cutset : string) :
  inCutset c s = false -> inCutset c (TrimLeft s cutset) = false.
Proof.
  induction s as [| x s IH]; cbn; [reflexivity |].
  intros Hs. destruct (inCutset x cutset); [| exact Hs].
  apply orb_false_iff in Hs as [_ Hs]. now apply IH.
Qed.

Lemma indentOf_takeCutset (line : string) :
  indentOf line = takeCutset line spaceTab.
Proof.
  unfold indentOf, indentLen, slice_to, slice, len.
  pose proof (takeCutset_TrimLeft line spaceTab) as Hsplit.
  assert (Hlen : String.length line
                 = (String.length (takeCutset line spaceTab)
                    + String.length (TrimLeft line spaceTab))%nat).
  { rewrite Hsplit at 1. apply length_append. }
  replace (Z.to_nat (Z.of_nat (String.length line)
                     - Z.of_nat (String.length (TrimLeft line spaceTab)) - 0))
    with (String.length (takeCutset line spaceTab)) by lia.
  change (Z.to_nat 0) with 0%nat.
  transitivity (String.substring 0 (String.length (takeCutset line spaceTab))
                  (takeCutset line spaceTab +:+ TrimLeft line spaceTab)).
  - now rewrite <- Hsplit.
  - apply substring_prefix.
Qed.

(** The slice [line[:indentLen]] is in range. *)
Lemma indentLen_range (line : string) : 0 <= indentLen line <= len line.
Proof.
  unfold indentLen, len.
  pose proof (f_equal String.length (takeCutset_TrimLeft line spaceTab)) as Hlen.
  rewrite length_append in Hlen. lia.
Qed.

(** *** Split and Join on line feeds *)

Lemma HasPrefix_nl (c : ascii) (s : string) :
  HasPrefix (String c s) nl = Ascii.eqb c (byte 10).
Proof.
  unfold HasPrefix, nl. cbn [String.prefix].
  destruct (ascii_dec (byte 10) c) as [<- | Hne].
  - rewrite Ascii.eqb_refl. now destruct s.
  - symmetry. apply Ascii.eqb_neq. congruence.
Qed.

Lemma Split_cons (c : ascii) (s : string) :
  Split (String c s) nl
  = if Ascii.eqb c (byte 10) then EmptyString :: Split s nl
    else match Split s nl with
         | piece :: pieces => String c piece :: pieces
         | [] => [String c EmptyString]
         end.
Proof.
  unfold Split. cbn [split_from]. rewrite HasPrefix_nl.
  destruct (Ascii.eqb c (byte 10)); reflexivity.
Qed.

Lemma Split_nonempty (s : string) : Split s nl <> [].
Proof.
  destruct s as [| c s]; [discriminate |].
  rewrite Split_cons.
  destruct (Ascii.eqb c (byte 10)); [discriminate |].
  destruct (Split s nl); discriminate.
Qed.

Lemma Join_cons (e : string) (rest : list string) (sep : string) :
  rest <> [] -> Join (e :: rest) sep = e +:+ sep +:+ Join rest sep.
Proof. destruct rest; [congruence | reflexivity]. Qed.

(** Splitting on line feeds and joining with line feeds gives the text back. *)
Lemma Join_Split (s : string) : Join (Split s nl) nl = s.
Proof.
  induction s as [| c s IH]; [reflexivity |].
  rewrite Split_cons. destruct (Ascii.eqb c (byte 10)) eqn:Hc.
  - apply Ascii.eqb_eq in Hc. subst c.
    rewrite Join_cons by apply Split_nonempty. now rewrite IH.
  - pose proof (Split_nonempty s) as Hne.
    destruct (Split s nl) as [| piece pieces]; [congruence |].
    destruct pieces as [| piece' pieces].
    + cbn in IH |- *. now subst.
    + rewrite Join_cons in IH |- * by discriminate.
      rewrite append_cons. now rewrite IH.
Qed.

Lemma Split_oneLine (s : string) : Forall oneLine (Split s nl).
Proof.
  induction s as [| c s IH]; [repeat constructor |].
  rewrite Split_cons. destruct (Ascii.eqb c (byte 10)) eqn:Hc.
  - constructor; [reflexivity | exact IH].
  - destruct (Split s nl) as [| piece pieces]; [repeat constructor; cbn |].
    + unfold oneLine. cbn [inCutset].
      now rewrite (Ascii.eqb_sym (byte 10) c), Hc.
    + inversion IH as [| ? ? Hpiece Hpieces]; subst. constructor; [| exact Hpieces].
      unfold oneLine in *. cbn [inCutset].
      now rewrite (Ascii.eqb_sym (byte 10) c), Hc, Hpiece.
Qed.

Lemma Split_append (a b : string) :
  oneLine a ->
  Split (a +:+ b) nl
  = match Split b nl with
    | piece :: pieces => (a +:+ piece) :: pieces
    | [] => [a]
    end.
Proof.
  induction a as [| c a IH]; intros Ha.
  - rewrite append_nil. pose proof (Split_nonempty b).
    destruct (Split b nl); [congruence | reflexivity].
  - unfold oneLine in Ha. cbn [inCutset] in Ha.
    apply orb_false_iff in Ha as [Hc Ha].
    rewrite append_cons, Split_cons.
    assert (Hc' : Ascii.eqb c (byte 10) = false).
    { rewrite Ascii.eqb_sym. exact Hc. }
    rewrite Hc', (IH Ha). pose proof (Split_nonempty b).
    destruct (Split b nl); [congruence | reflexivity].
Qed.

(** Joining lines without line feeds and splitting again gives the lines
    back. *)
Lemma Split_Join (ls : list string) :
  ls <> [] -> Forall oneLine ls -> Split (Join ls nl) nl = ls.
Proof.
  induction ls as [| a ls IH]; [congruence |]. intros _ Hall.
  inversion Hall as [| ? ? Ha Hls]; subst.
  destruct ls as [| b ls].
  - cbn [Join]. rewrite <- (append_empty_r a) at 1.
    rewrite (Split_append a "" Ha). cbn. now rewrite append_empty_r.
  - rewrite Join_cons by discriminate.
    rewrite (Split_append a _ Ha).
    change (nl +:+ Join (b :: ls) nl) with (String (byte 10) (Join (b :: ls) nl)).
    rewrite Split_cons, Ascii.eqb_refl, append_empty_r.
    now rewrite IH.
Qed.

(** *** Trimming keeps a line on one line *)

Lemma TrimLeftSpace_suffix (s : string) :
  exists pre, s = pre +:+ TrimLeftSpace s.
Proof.
  assert (Hn : forall n s, (String.length s <= n)%nat ->
                 exists pre, s = pre +:+ TrimLeftSpace s).
  { clear s. induction n as [| n IH]; intros s Hlen.
    - destruct s; [now exists EmptyString | cbn in Hlen; lia].
    - destruct s as [| b0 s1]; [now exists EmptyString |].
      cbn [String.length] in Hlen. cbn [TrimLeftSpace].
      destruct (asciiSpace b0).
      { destruct (IH s1) as [pre Hpre]; [lia |].
        exists (String b0 pre). rewrite append_cons. now rewrite <- Hpre. }
      destruct s1 as [| b1 s2]; [now exists EmptyString |].
      cbn [String.length] in Hlen.
      destruct (space2 b0 b1).
      { destruct (IH s2) as [pre Hpre]; [lia |].
        exists (String b0 (String b1 pre)). rewrite !append_cons.
        now rewrite <- Hpre. }
      destruct s2 as [| b2 s3]; [now exists EmptyString |].
      cbn [String.length] in Hlen.
      destruct (space3 b0 b1 b2); [| now exists EmptyString].
      destruct (IH s3) as [pre Hpre]; [lia |].
      exists (String b0 (String b1 (String b2 pre))). rewrite !append_cons.
      now rewrite <- Hpre. }
  apply (Hn (String.length s)). lia.
Qed.

Lemma TrimLeftSpaceRev_suffix (r : string) :
  exists pre, r = pre +:+ TrimLeftSpaceRev r.
Proof.
  assert (Hn : forall n r, (String.length r <= n)%nat ->
                 exists pre, r = pre +:+ TrimLeftSpaceRev r).
  { clear r. induction n as [| n IH]; intros r Hlen.
    - destruct r; [now exists EmptyString | cbn in Hlen; lia].
    - destruct r as [| b0 r1]; [now exists EmptyString |].
      cbn [String.length] in Hlen. cbn [TrimLeftSpaceRev].
      destruct (asciiSpace b0).
      { destruct (IH r1) as [pre Hpre]; [lia |].
        exists (String b0 pre). rewrite append_cons. now rewrite <- Hpre. }
      destruct r1 as [| b1 r2]; [now exists EmptyString |].
      cbn [String.length] in Hlen.
      destruct (space2 b1 b0).
      { destruct (IH r2) as [pre Hpre]; [lia |].
        exists (String b0 (String b1 pre)). rewrite !append_cons.
        now rewrite <- Hpre. }
      destruct r2 as [| b2 r3]; [now exists EmptyString |].
      cbn [String.length] in Hlen.
      destruct (space3 b2 b1 b0); [| now exists EmptyString].
      destruct (IH r3) as [pre Hpre]; [lia |].
      exists (String b0 (String b1 (String b2 pre))). rewrite !append_cons.
      now rewrite <- Hpre. }
  apply (Hn (String.length r)). lia.
Qed.

Lemma inCutset_suffix (c : ascii) (pre s t : string) :
  s = pre +:+ t -> inCutset c s = false -> inCutset c t = false.
Proof.
  intros -> Hs. rewrite inCutset_append in Hs.
  now apply orb_false_iff in Hs as [_ Ht].
Qed.

Lemma inCutset_rev_onto (c : ascii) (s acc : string) :
  inCutset c (rev_onto s acc) = inCutset c s || inCutset c acc.
Proof.
  revert acc. induction s as [| x s IH]; intros acc; [reflexivity |].
  cbn [rev_onto inCutset]. rewrite IH. cbn [inCutset].
  destruct (Ascii.eqb c x), (inCutset c s), (inCutset c acc); reflexivity.
Qed.

Lemma inCutset_reverse (c : ascii) (s : string) :
  inCutset c (reverse s) = inCutset c s.
Proof. unfold reverse. rewrite inCutset_rev_onto. cbn. apply orb_false_r. Qed.

Lemma TrimSpace_keeps_out (c : ascii) (s : string) :
  inCutset c s = false -> inCutset c (TrimSpace s) = false.
Proof.
  intros Hs. unfold TrimSpace, TrimRightSpace.
  rewrite inCutset_reverse.
  destruct (TrimLeftSpaceRev_suffix (reverse (TrimLeftSpace s))) as [pre Hpre].
  apply (inCutset_suffix c pre _ _ Hpre).
  rewrite inCutset_reverse.
  destruct (TrimLeftSpace_suffix s) as [pre' Hpre'].
  now apply (inCutset_suffix c pre' s).
Qed.

Lemma TrimPrefix_keeps_out (c : ascii) (s prefix : string) :
  inCutset c s = false -> inCutset c (TrimPrefix s prefix) = false.
Proof.
  intros Hs. unfold TrimPrefix.
  destruct (HasPrefix s prefix); [now apply inCutset_slice | exact Hs].
Qed.

Lemma currentOf_keeps_out (c : ascii) (line : string) :
  inCutset c line = false -> inCutset c (currentOf line) = false.
Proof.
  intros Hl. unfold currentOf.
  apply TrimLeft_oneLine, TrimSpace_keeps_out, TrimPrefix_keeps_out,
    TrimSpace_keeps_out, Hl.
Qed.

End StringFacts.

(** * Properties of the endpoint rewrite *)

Section EndpointProperties.
Import GoStrings Endpoint.

Lemma rewriteLine_Continue (line appName port : string) :
  rewriteLine line appName port = Continue <-> isEndpointLine line = false.
Proof.
  unfold rewriteLine, isEndpointLine.
  destruct (HasPrefix (TrimSpace line) "Endpoint "),
    (HasPrefix (TrimSpace line) "Endpoint="); cbn [negb andb orb];
    try tauto;
    (split; [| discriminate]);
    repeat match goal with
           | |- context [if ?b then _ else _] => destruct b
           end; discriminate.
Qed.

Lemma HasPrefix_append (a b : string) : HasPrefix (a +:+ b) a = true.
Proof.
  unfold HasPrefix. induction a as [| c a IH]; [now destruct b |].
  rewrite append_cons. cbn [String.prefix].
  destruct (ascii_dec c c); [exact IH | congruence].
Qed.

(** What a rewritten line looks like: the indentation of the old line, then
    a directive that starts with "Endpoint = ". *)
Lemma rewriteLine_Rewrite (line appName port newLine : string) :
  rewriteLine line appName port = Rewrite newLine ->
  isEndpointLine line = true
  /\ exists target,
       newLine = indentOf line +:+ target
       /\ HasPrefix target "Endpoint = " = true
       /\ (oneLine line -> oneLine appName -> oneLine port -> oneLine newLine).
Proof.
  intros Hrw. split.
  { destruct (isEndpointLine line) eqn:He; [reflexivity |].
    apply rewriteLine_Continue with (appName := appName) (port := port) in He.
    congruence. }
  unfold rewriteLine in Hrw.
  destruct (negb (HasPrefix (TrimSpace line) "Endpoint ")
            && negb (HasPrefix (TrimSpace line) "Endpoint=")); [discriminate |].
  assert (Hindent : oneLine line -> oneLine (indentOf line)).
  { intros Hl. now apply inCutset_slice. }
  destruct (negb (String.eqb appName "") && negb (String.eqb port "")).
  { injection Hrw as <-.
    exists ("Endpoint = " +:+ appName +:+ ".fly.dev:" +:+ port).
    split; [reflexivity | split; [apply HasPrefix_append |]].
    intros Hl Ha Hp. unfold oneLine in *.
    rewrite !inCutset_append, (Hindent Hl), Ha, Hp. reflexivity. }
  destruct ((1 <? Count (currentOf line) ":")
            && negb (Contains (currentOf line) "]")); [| discriminate].
  destruct ((0 <? LastIndex (currentOf line) ":")
            && (LastIndex (currentOf line) ":" <? len (currentOf line) - 1));
    [| discriminate].
  destruct (negb (String.eqb
                    (slice_from (currentOf line)
                       (LastIndex (currentOf line) ":" + 1)) ""));
    [| discriminate].
  injection Hrw as <-.
  exists ("Endpoint = [" +:+ slice_to (currentOf line) (LastIndex (currentOf line) ":")
          +:+ "]:" +:+ slice_from (currentOf line) (LastIndex (currentOf line) ":" + 1)).
  split; [reflexivity | split; [reflexivity |]].
  intros Hl _ _. unfold oneLine in *.
  pose proof (currentOf_keeps_out (byte 10) line Hl) as Hcur.
  rewrite !inCutset_append, (Hindent Hl).
  unfold slice_to, slice_from.
  rewrite !(inCutset_slice (byte 10) (currentOf line) _ _ Hcur). reflexivity.
Qed.

(** The loop, from any index: either the text comes back, or one line, the
    first Endpoint line at or after the index, is replaced. *)
Lemma rewriteFrom_spec (conf : string) (lines : list string)
    (appName port : string) (todo : list string) :
  forall i : nat,
    drop i lines = todo ->
    (forall j l, (j < i)%nat -> lines !! j = Some l -> isEndpointLine l = false) ->
    rewriteFrom conf lines appName port i todo = conf
    \/ exists k line newLine,
         lines !! k = Some line
         /\ rewriteLine line appName port = Rewrite newLine
         /\ (forall j l, (j < k)%nat -> lines !! j = Some l ->
                         isEndpointLine l = false)
         /\ rewriteFrom conf lines appName port i todo
            = Join (<[k := newLine]> lines) nl.
Proof.
  induction todo as [| line todo IH]; intros i Hdrop Hbefore; [now left |].
  assert (Hline : lines !! i = Some line).
  { rewrite <- (Nat.add_0_r i), <- lookup_drop, Hdrop. reflexivity. }
  cbn [rewriteFrom].
  destruct (rewriteLine line appName port) as [| newLine |] eqn:Hact.
  - apply IH.
    + rewrite (drop_S lines line i Hline) in Hdrop. now injection Hdrop.
    + intros j l Hj Hl. destruct (decide (j = i)) as [-> | Hne].
      * rewrite Hline in Hl. injection Hl as <-.
        now apply (rewriteLine_Continue line appName port).
      * apply (Hbefore j l); [lia | exact Hl].
  - right. exists i, line, newLine. auto.
  - now left.
Qed.

(** The value "2a02:1234::1:51820" of the IPv6 example and its split. *)
Lemma ipv6_example_split :
  currentOf "Endpoint = 2a02:1234::1:51820" = "2a02:1234::1:51820"
  /\ Count "2a02:1234::1:51820" ":" = 4
  /\ Contains "2a02:1234::1:51820" "]" = false
  /\ Contains "2a02:1234::1:51820" "[" = false
  /\ LastIndex "2a02:1234::1:51820" ":" = 12
  /\ slice_to "2a02:1234::1:51820" 12 = "2a02:1234::1"
  /\ slice_from "2a02:1234::1:51820" 13 = "51820".
Proof. repeat split; vm_compute; reflexivity. Qed.

(** *** Counting and finding a single byte *)

Lemma HasPrefix_byte (c d : ascii) (s : string) :
  HasPrefix (String c s) (String d "") = Ascii.eqb c d.
Proof.
  unfold HasPrefix. cbn [String.prefix].
  destruct (ascii_dec d c) as [<- | Hne].
  - rewrite Ascii.eqb_refl. now destruct s.
  - symmetry. apply Ascii.eqb_neq. congruence.
Qed.

Lemma Count_cons (c d : ascii) (s : string) :
  Count (String c s) (String d "")
  = (if Ascii.eqb c d then 1 else 0) + Count s (String d "").
Proof.
  unfold Count. cbn [count_from]. rewrite HasPrefix_byte.
  destruct (Ascii.eqb c d); reflexivity.
Qed.

Lemma LastIndex_cons (c d : ascii) (s : string) :
  LastIndex (String c s) (String d "")
  = if 0 <=? LastIndex s (String d "") then LastIndex s (String d "") + 1
    else if Ascii.eqb c d then 0 else -1.
Proof. cbn [LastIndex]. now rewrite HasPrefix_byte. Qed.

Lemma Count_found (d : ascii) (s : string) :
  0 < Count s (String d "") -> 0 <= LastIndex s (String d "").
Proof.
  induction s as [| c s IH]; [cbn; lia |].
  rewrite Count_cons, LastIndex_cons. intros Hcount.
  destruct (Z.leb_spec 0 (LastIndex s (String d ""))) as [Hge | Hlt]; [lia |].
  destruct (Ascii.eqb c d); lia.
Qed.

(** Two occurrences put the last one after the first byte. *)
Lemma Count_twice (d : ascii) (s : string) :
  1 < Count s (String d "") -> 0 < LastIndex s (String d "").
Proof.
  destruct s as [| c s]; [cbn; lia |].
  rewrite Count_cons, LastIndex_cons. intros Hcount.
  assert (Hrest : 0 <= LastIndex s (String d "")).
  { apply Count_found. destruct (Ascii.eqb c d); lia. }
  destruct (Z.leb_spec 0 (LastIndex s (String d ""))); lia.
Qed.

Lemma substring_length (s : string) (n m : nat) :
  (n + m <= String.length s)%nat -> String.length (String.substring n m s) = m.
Proof.
  revert n m. induction s as [| c s IH]; intros n m Hlen; cbn in Hlen.
  - assert (n = 0%nat /\ m = 0%nat) as [-> ->] by lia. reflexivity.
  - destruct n as [| n]; cbn [String.substring].
    + destruct m as [| m]; [reflexivity |].
      cbn [String.length]. rewrite IH; [reflexivity | lia].
    + apply IH. lia.
Qed.

(** The second case of the rewrite: with no host name or no port known, an
    Endpoint value with more than one colon, no closing bracket and a last
    colon that is not its last byte is cut at that colon, and the part before
    it is put in brackets. *)
Lemma rewriteLine_brackets (line appName port : string) :
  isEndpointLine line = true ->
  appName = EmptyString \/ port = EmptyString ->
  1 < Count (currentOf line) ":" ->
  Contains (currentOf line) "]" = false ->
  LastIndex (currentOf line) ":" < len (currentOf line) - 1 ->
  rewriteLine line appName port
  = Rewrite (indentOf line +:+ "Endpoint = ["
             +:+ slice_to (currentOf line) (LastIndex (currentOf line) ":")
             +:+ "]:"
             +:+ slice_from (currentOf line) (LastIndex (currentOf line) ":" + 1)).
Proof.
  intros Hep Hunknown Hcount Hbr Hlast.
  pose proof (Count_twice ":"%char _ Hcount) as Hpos.
  unfold rewriteLine. unfold isEndpointLine in Hep.
  apply orb_true_iff in Hep.
  assert (Hguard : negb (HasPrefix (TrimSpace line) "Endpoint ")
                   && negb (HasPrefix (TrimSpace line) "Endpoint=") = false).
  { destruct Hep as [-> | ->]; cbn; [reflexivity | apply andb_false_r]. }
  rewrite Hguard.
  assert (Hcase1 : negb (String.eqb appName "") && negb (String.eqb port "") = false).
  { destruct Hunknown as [-> | ->]; cbn; [reflexivity | apply andb_false_r]. }
  rewrite Hcase1.
  assert (Hc : (1 <? Count (currentOf line) ":") = true) by (apply Z.ltb_lt; lia).
  assert (Hl1 : (0 <? LastIndex (currentOf line) ":") = true) by (apply Z.ltb_lt; lia).
  assert (Hl2 : (LastIndex (currentOf line) ":" <? len (currentOf line) - 1) = true)
    by (apply Z.ltb_lt; lia).
  rewrite Hc, Hbr, Hl1, Hl2. cbn [negb andb].
  assert (Hp : String.eqb (slice_from (currentOf line)
                             (LastIndex (currentOf line) ":" + 1)) "" = false).
  { apply String.eqb_neq. intros Hempty.
    apply (f_equal String.length) in Hempty.
    unfold slice_from, slice, len in Hempty, Hlast.
    rewrite substring_length in Hempty; cbn in Hempty; lia. }
  rewrite Hp. reflexivity.
Qed.

(** C9 (as amended). With no host name configured, the text
    "Endpoint = 2a02:1234::1:51820" is rewritten to
    "Endpoint = [2a02:1234::1]:51820", whatever the port setting, by both
    copies of the function.  The rule behind it: an Endpoint value with more
    than one colon and no bracket, whose last colon is not its last byte, so
    that a port follows it, is split at its last colon and the host part is
    wrapped in brackets. *)
Theorem ipv6_endpoint_gets_brackets :
  (forall (s : Bootstrap.Server) (port : string),
     Bootstrap.rewriteEndpoint s "Endpoint = 2a02:1234::1:51820" "" port
     = "Endpoint = [2a02:1234::1]:51820")
  /\ (forall port : string,
        Main.rewriteEndpoint "Endpoint = 2a02:1234::1:51820" "" port
        = "Endpoint = [2a02:1234::1]:51820")
  /\ (1 < Count (currentOf "Endpoint = 2a02:1234::1:51820") ":"
      /\ Contains (currentOf "Endpoint = 2a02:1234::1:51820") "[" = false
      /\ Contains (currentOf "Endpoint = 2a02:1234::1:51820") "]" = false
      /\ slice_to (currentOf "Endpoint = 2a02:1234::1:51820")
           (LastIndex (currentOf "Endpoint = 2a02:1234::1:51820") ":")
         = "2a02:1234::1"
      /\ slice_from (currentOf "Endpoint = 2a02:1234::1:51820")
           (LastIndex (currentOf "Endpoint = 2a02:1234::1:51820") ":" + 1)
         = "51820")
  /\ (forall line appName port : string,
        isEndpointLine line = true ->
        appName = EmptyString \/ port = EmptyString ->
        1 < Count (currentOf line) ":" ->
        Contains (currentOf line) "]" = false ->
        LastIndex (currentOf line) ":" < len (currentOf line) - 1 ->
        rewriteLine line appName port
        = Rewrite (indentOf line +:+ "Endpoint = ["
                   +:+ slice_to (currentOf line) (LastIndex (currentOf line) ":")
                   +:+ "]:"
                   +:+ slice_from (currentOf line)
                         (LastIndex (currentOf line) ":" + 1))).
Proof.
  split; [| split; [| split]].
  - intros s port. unfold Bootstrap.rewriteEndpoint. vm_compute. reflexivity.
  - intros port. unfold Main.rewriteEndpoint. vm_compute. reflexivity.
  - repeat split; vm_compute; reflexivity.
  - exact rewriteLine_brackets.
Qed.

(** C9, as first stated, fails in its general rule.  The value of the line
    "Endpoint = fe80::" has two colons and no bracket, but its last colon is
    its last byte: nothing follows it that could be a port, the line is kept,
    and [rewriteEndpoint] returns the text as it was.  So it is not true that
    every Endpoint value with more than one colon and no bracket is split at
    its last colon and wrapped in brackets. *)
Lemma trailing_colon_value_is_kept :
  (isEndpointLine "Endpoint = fe80::" = true
   /\ currentOf "Endpoint = fe80::" = "fe80::"
   /\ Count (currentOf "Endpoint = fe80::") ":" = 2
   /\ Contains (currentOf "Endpoint = fe80::") "[" = false
   /\ Contains (currentOf "Endpoint = fe80::") "]" = false
   /\ LastIndex (currentOf "Endpoint = fe80::") ":"
      = len (currentOf "Endpoint = fe80::") - 1
   /\ (forall port : string, rewriteLine "Endpoint = fe80::" "" port = Keep)
   /\ (forall port : string,
         rewriteEndpoint "Endpoint = fe80::" "" port = "Endpoint = fe80::")
   /\ (forall (s : Bootstrap.Server) (port : string),
         Bootstrap.rewriteEndpoint s "Endpoint = fe80::" "" port
         = "Endpoint = fe80::")
   /\ (forall port : string,
         Main.rewriteEndpoint "Endpoint = fe80::" "" port = "Endpoint = fe80::"))
  /\ ~ (forall line appName port : string,
          isEndpointLine line = true ->
          appName = EmptyString ->
          1 < Count (currentOf line) ":" ->
          Contains (currentOf line) "[" = false ->
          Contains (currentOf line) "]" = false ->
          rewriteLine line appName port
          = Rewrite (indentOf line +:+ "Endpoint = ["
                     +:+ slice_to (currentOf line) (LastIndex (currentOf line) ":")
                     +:+ "]:"
                     +:+ slice_from (currentOf line)
                           (LastIndex (currentOf line) ":" + 1))).
Proof.
  assert (Hkeep : forall port : string,
            rewriteLine "Endpoint = fe80::" "" port = Keep).
  { intros port. vm_compute. reflexivity. }
  split.
  - unfold Bootstrap.rewriteEndpoint, Main.rewriteEndpoint.
    repeat (split; [intros; vm_compute; reflexivity |]).
    intros port. vm_compute. reflexivity.
  - intros Hrule.
    specialize (Hrule "Endpoint = fe80::" "" "51820").
    rewrite Hkeep in Hrule.
    assert (Hep : isEndpointLine "Endpoint = fe80::" = true)
      by (vm_compute; reflexivity).
    assert (Hcount : 1 < Count (currentOf "Endpoint = fe80::") ":")
      by (vm_compute; reflexivity).
    assert (Hopen : Contains (currentOf "Endpoint = fe80::") "[" = false)
      by (vm_compute; reflexivity).
    assert (Hclose : Contains (currentOf "Endpoint = fe80::") "]" = false)
      by (vm_compute; reflexivity).
    specialize (Hrule Hep eq_refl Hcount Hopen Hclose).
    discriminate Hrule.
Qed.

(** C8 (as amended). The output of [rewriteEndpoint] is the input text, or
    the input's lines joined again with one line replaced: the first line
    whose trimmed form starts with "Endpoint " or "Endpoint=".  The new line
    is the old line's indentation, that is its longest prefix of spaces and
    tabs, followed by a directive that starts with "Endpoint = ".  When the
    host name and the port contain no line feed, the lines of the output are
    the lines of the input with that one line replaced, so every other line
    of the output is the corresponding input line, byte for byte. *)
Theorem rewriteEndpoint_changes_one_line (conf appName port : string) :
  Join (Split conf nl) nl = conf
  /\ (rewriteEndpoint conf appName port = conf
      \/ exists (i : nat) (line target : string),
           Split conf nl !! i = Some line
           /\ isEndpointLine line = true
           /\ (forall j l, (j < i)%nat -> Split conf nl !! j = Some l ->
                           isEndpointLine l = false)
           /\ rewriteEndpoint conf appName port
              = Join (<[i := indentOf line +:+ target]> (Split conf nl)) nl
           /\ HasPrefix target "Endpoint = " = true
           /\ line = indentOf line +:+ TrimLeft line spaceTab
           /\ (forall c, inCutset c (indentOf line) = true ->
                         inCutset c spaceTab = true)
           /\ startsInCutset (TrimLeft line spaceTab) spaceTab = false
           /\ (oneLine appName -> oneLine port ->
               Split (rewriteEndpoint conf appName port) nl
               = <[i := indentOf line +:+ target]> (Split conf nl)
               /\ forall j, j <> i ->
                    Split (rewriteEndpoint conf appName port) nl !! j
                    = Split conf nl !! j)).
Proof.
  split; [apply Join_Split |].
  unfold rewriteEndpoint.
  destruct (rewriteFrom_spec conf (Split conf nl) appName port (Split conf nl) 0%nat)
    as [Hsame | (k & line & newLine & Hline & Hrw & Hfirst & Hout)].
  - reflexivity.
  - intros j l Hj. lia.
  - now left.
  - right.
    destruct (rewriteLine_Rewrite line appName port newLine Hrw)
      as (Hep & target & -> & Htarget & Hone).
    exists k, line, target.
    repeat (split; [assumption |]).
    split; [| split; [| split]].
    + rewrite indentOf_takeCutset. apply takeCutset_TrimLeft.
    + intros c. rewrite indentOf_takeCutset. apply takeCutset_within.
    + apply TrimLeft_start.
    + intros Ha Hp. rewrite Hout.
      assert (Hall : Forall oneLine (Split conf nl)) by apply Split_oneLine.
      assert (Hl : oneLine line).
      { rewrite Forall_lookup in Hall. exact (Hall k line Hline). }
      assert (Hsplit : Split (Join (<[k := indentOf line +:+ target]> (Split conf nl)) nl) nl
                       = <[k := indentOf line +:+ target]> (Split conf nl)).
      { apply Split_Join.
        - intros Hnil. apply (f_equal length) in Hnil.
          rewrite length_insert in Hnil.
          pose proof (Split_nonempty conf) as Hne.
          destruct (Split conf nl); [congruence | discriminate].
        - apply Forall_insert; [exact Hall | now apply Hone]. }
      split; [exact Hsplit |].
      intros j Hj. rewrite Hsplit. now apply list_lookup_insert_ne.
Qed.

(** C8, as first stated, fails: a line that begins with a carriage return is
    recognised as the Endpoint line, since trimming removes the carriage
    return, but the rewritten line does not begin with it.  So it is not true
    that the leading white space of every rewritten line is a prefix of the
    new line. *)
Lemma carriage_return_indent_is_lost :
  let line := String (byte 13) "Endpoint = 10.0.0.1:51820" in
  (Split line nl = [line]
   /\ TrimSpace line = "Endpoint = 10.0.0.1:51820"
   /\ isEndpointLine line = true
   /\ leadingSpace line = String (byte 13) ""
   /\ indentOf line = EmptyString
   /\ rewriteEndpoint line "myvpn" "51820" = "Endpoint = myvpn.fly.dev:51820"
   /\ HasPrefix (rewriteEndpoint line "myvpn" "51820") (leadingSpace line) = false)
  /\ ~ (forall (conf appName port : string) (i : nat) (old new : string),
          Split conf nl !! i = Some old ->
          Split (rewriteEndpoint conf appName port) nl !! i = Some new ->
          new <> old ->
          HasPrefix new (leadingSpace old) = true).
Proof.
  split; [repeat split; vm_compute; reflexivity |].
  intros Hclaim.
  specialize (Hclaim (String (byte 13) "Endpoint = 10.0.0.1:51820") "myvpn" "51820"
                0%nat (String (byte 13) "Endpoint = 10.0.0.1:51820")
                "Endpoint = myvpn.fly.dev:51820").
  assert (Hfalse : HasPrefix "Endpoint = myvpn.fly.dev:51820"
                     (leadingSpace (String (byte 13) "Endpoint = 10.0.0.1:51820"))
                   = false) by (vm_compute; reflexivity).
  rewrite Hclaim in Hfalse; [discriminate | vm_compute; reflexivity
                            | vm_compute; reflexivity | discriminate].
Qed.

(** No-break spaces (U+00A0) in front of the directive are white space to
    [strings.TrimSpace] as well, and are not kept either. *)
Lemma no_break_space_indent_is_lost :
  let nbsp := String (byte 194) (String (byte 160) "") in
  rewriteEndpoint (nbsp +:+ nbsp +:+ "Endpoint = 10.0.0.1:51820") "myvpn" "51820"
  = "Endpoint = myvpn.fly.dev:51820".
Proof. vm_compute. reflexivity. Qed.

(** Spaces and tabs in front of the directive are kept, the rest of the old
    line is not, and the other lines stay as they are. *)
Lemma indented_endpoint_example :
  rewriteEndpoint
    ("[Peer]" +:+ nl +:+ String (byte 9) " Endpoint=10.0.0.1:51820  " +:+ nl
     +:+ "Endpoint = 10.0.0.2:51820" +:+ nl)
    "myvpn" "51820"
  = "[Peer]" +:+ nl +:+ String (byte 9) " Endpoint = myvpn.fly.dev:51820" +:+ nl
    +:+ "Endpoint = 10.0.0.2:51820" +:+ nl.
Proof. vm_compute. reflexivity. Qed.

(** A host name that contains a line feed makes the replacement span two
    lines of the output. *)
Lemma line_feed_in_host_spans_lines :
  Split (rewriteEndpoint ("Endpoint = 10.0.0.1:51820" +:+ nl +:+ "MTU = 1280")
           ("my" +:+ nl +:+ "vpn") "51820") nl
  = ["Endpoint = my"; "vpn.fly.dev:51820"; "MTU = 1280"].
Proof. vm_compute. reflexivity. Qed.

End EndpointProperties.

(** * More about the bootstrap gate *)

Section GateCoverage.
Import GoStrings Http Config Gate.
Context `{Collaborators}.

Ltac settle := cbv beta iota zeta; cbn [negb app fst snd].

Ltac open_gate :=
  unfold run, serve, response, world_after, trace, gone,
    Bootstrap.bootstrap, Main.bootstrap,
    Main.fileExists, Bootstrap.rewriteEndpoint, Main.rewriteEndpoint,
    os_Stat, os_ReadFile, os_WriteFile, Query_Get,
    qr_Encode, log_Printf, template_Execute, http_Error;
  unfold bind, ret, emit;
  cbn [markerPath configPath secretToken] in *;
  settle.

(** Case analysis on every test a handler makes. *)
Ltac branch :=
  repeat (match goal with
          | |- context [bool_decide ?P] => destruct (bool_decide P) eqn:?
          | |- context [String.eqb ?a ?b] => destruct (String.eqb a b) eqn:?
          | |- context [files ?w !! ?p] =>
              is_var w; destruct (files w !! p) eqn:?
          | |- context [qrcode_Encode ?c] => destruct (qrcode_Encode c) eqn:?
          | |- context [readOnly ?w] => is_var w; destruct (readOnly w) eqn:?
          end; settle).

(** A request either leaves the world as it was, or is answered 200 after
    writing the marker on a writable volume. *)
Lemma serve_world (g : Gate) (w : World) (r : Request) (now : string) :
  world_after (run (serve g r now) w) = w
  \/ (status (response (run (serve g r now) w)) = 200
      /\ readOnly w = false
      /\ world_after (run (serve g r now) w)
         = mkWorld (<[markerPath g := now]> (files w)) false).
Proof.
  destruct g as [s | m]; open_gate; branch; auto.
Qed.

Lemma failure_changes_nothing (g : Gate) (w : World) (r : Request) (now : string) :
  status (response (run (serve g r now) w)) <> 200 ->
  world_after (run (serve g r now) w) = w.
Proof.
  destruct g as [s | m]; open_gate; branch; auto; intros Hne;
    exfalso; apply Hne; reflexivity.
Qed.

Lemma success_completes (g : Gate) (w : World) (r : Request) (now : string) :
  writeChecked g w ->
  status (response (run (serve g r now) w)) = 200 ->
  files (world_after (run (serve g r now) w)) !! markerPath g = Some now.
Proof.
  destruct g as [s | m]; cbn [writeChecked]; intros Hw; open_gate; branch;
    try discriminate; intros _; cbn; apply lookup_insert_eq.
Qed.

Lemma serve_keeps_mount (g : Gate) (w : World) (r : Request) (now : string) :
  readOnly (world_after (run (serve g r now) w)) = readOnly w.
Proof.
  destruct (serve_world g w r now) as [-> | (_ & Hro & ->)];
    [reflexivity | now rewrite Hro].
Qed.

Lemma serveAll_cons (g : Gate) (w : World) (r : Request) (now : string)
    (reqs : list (Request * string)) :
  serveAll g w ((r, now) :: reqs)
  = ((response (run (serve g r now) w), trace (run (serve g r now) w))
       :: fst (serveAll g (world_after (run (serve g r now) w)) reqs),
     snd (serveAll g (world_after (run (serve g r now) w)) reqs)).
Proof.
  cbn [serveAll]. unfold response, world_after, trace.
  destruct (run (serve g r now) w) as [[resp w'] tr]. cbn [fst snd].
  destruct (serveAll g w' reqs) as [rest w'']. reflexivity.
Qed.

(** On a completed gate nothing is served. *)
Lemma serveAll_completed (g : Gate) (w : World) (reqs : list (Request * string)) :
  is_Some (files w !! markerPath g) ->
  servedCount (fst (serveAll g w reqs)) = 0%nat /\ snd (serveAll g w reqs) = w.
Proof.
  intros Hdone. induction reqs as [| [r now] reqs [IHc IHw]]; [now split |].
  rewrite serveAll_cons, (serve_completed g w r now Hdone).
  unfold response, world_after, trace. cbn [fst snd].
  split; [| exact IHw].
  unfold servedCount in *. rewrite filter_cons_False; [exact IHc |].
  cbn. discriminate.
Qed.

(** X1. The page is served at most once: in any sequence of requests to the
    handler of [main], and in any sequence of requests to [Server.bootstrap]
    on a writable volume, at most one request is answered 200. *)
Theorem page_served_at_most_once
    (g : Gate) (w : World) (reqs : list (Request * string)) :
  writeChecked g w ->
  (servedCount (fst (serveAll g w reqs)) <= 1)%nat.
Proof.
  revert w. induction reqs as [| [r now] reqs IH]; intros w Hw; [cbn; lia |].
  rewrite serveAll_cons. cbn [fst].
  unfold servedCount. cbn [fst].
  destruct (decide (status (response (run (serve g r now) w)) = 200)) as [Hok | Hno].
  - rewrite filter_cons_True by exact Hok. cbn [length].
    pose proof (success_completes g w r now Hw Hok) as Hmark.
    destruct (serveAll_completed g (world_after (run (serve g r now) w)) reqs)
      as [Hzero _]; [rewrite Hmark; eauto |].
    unfold servedCount in Hzero. rewrite Hzero. lia.
  - rewrite filter_cons_False by exact Hno.
    rewrite (failure_changes_nothing g w r now Hno). now apply IH.
Qed.

(** X2. Serving requests never touches a file other than the marker: after
    any sequence of requests every other path holds what it held before (in
    particular the peer configuration, whose path differs from the
    marker's), and the volume is as writable as before. *)
Theorem only_the_marker_is_written
    (g : Gate) (w : World) (reqs : list (Request * string)) (path : string) :
  path <> markerPath g ->
  files (snd (serveAll g w reqs)) !! path = files w !! path
  /\ readOnly (snd (serveAll g w reqs)) = readOnly w.
Proof.
  intros Hpath. revert w. induction reqs as [| [r now] reqs IH]; intros w;
    [now split |].
  rewrite serveAll_cons. cbn [snd].
  destruct (IH (world_after (run (serve g r now) w))) as [IHf IHr].
  rewrite IHf, IHr. split; [| apply serve_keeps_mount].
  destruct (serve_world g w r now) as [-> | (_ & _ & ->)]; [reflexivity |].
  cbn [files]. now apply lookup_insert_ne.
Qed.

(** X3. What is rendered is what was encoded: whenever a handler executes
    the page template, the text it shows is the peer configuration read from
    the volume, rewritten for the configured host name and port, the QR
    encoder was called on exactly that text, and the image is the base64 form of the encoder's result (of the
    empty image when [Server.bootstrap] dropped an encoding error). *)
Theorem page_shows_the_encoded_text
    (g : Gate) (w : World) (r : Request) (now config qrBase64 : string) :
  In (EvExecute config qrBase64) (trace (run (serve g r now) w)) ->
  In (EvEncode config) (trace (run (serve g r now) w))
  /\ qrBase64 = base64_EncodeToString (default EmptyString (qrcode_Encode config))
  /\ exists conf,
       files w !! configPath g = Some conf
       /\ config
          = match g with
            | ServerGate s =>
                Endpoint.rewriteEndpoint conf
                  (EndpointHost (Bootstrap.cfg s)) (EndpointPort (Bootstrap.cfg s))
            | MainGate m =>
                Endpoint.rewriteEndpoint conf
                  (Main.endpointHost m) (Main.endpointPort m)
            end
       /\ response (run (serve g r now) w)
          = mkResponse 200 (Page_Execute config qrBase64).
Proof.
  revert config qrBase64.
  destruct g as [s | m]; open_gate; branch; cbn [In];
    intros config qrBase64 Hin;
    repeat match goal with
           | Hx : _ \/ _ |- _ => destruct Hx as [Hx | Hx]
           | Hx : False |- _ => destruct Hx
           | Hx : _ = EvExecute _ _ |- _ => try discriminate Hx
           end;
    match goal with
    | Hx : EvExecute _ _ = EvExecute _ _ |- _ => injection Hx as <- <-
    end;
    (split; [tauto |]);
    (split; [match goal with
             | Hq : qrcode_Encode _ = _ |- _ => now rewrite Hq
             end |]);
    eauto 10.
Qed.

(** The server built from [config.Load] and the locals of [main] read the
    same values from the same environment. *)
Lemma load_alike (env : gmap string string) :
  alike (Bootstrap.NewServer (Config.Load env)) (Main.main_locals env).
Proof. repeat split. Qed.

(** X4. The two programs agree where nothing fails.  Set up from the same
    environment, [Server.bootstrap] and the handler of [main] give the same
    response and leave the same world for every request that passes the
    token check, on a writable volume, provided the encoder accepts the
    rewritten configuration if there is one to read. *)
Theorem handlers_agree_when_nothing_fails
    (env : gmap string string) (w : World) (r : Request) (now : string) :
  authorised (MainGate (Main.main_locals env)) r ->
  readOnly w = false ->
  (forall conf,
     files w !! Main.confPath (Main.main_locals env) = Some conf ->
     qrcode_Encode
       (Endpoint.rewriteEndpoint conf
          (Main.endpointHost (Main.main_locals env))
          (Main.endpointPort (Main.main_locals env))) <> None) ->
  response (run (Bootstrap.bootstrap (Bootstrap.NewServer (Config.Load env)) r now) w)
  = response (run (Main.bootstrap (Main.main_locals env) r now) w)
  /\ world_after (run (Bootstrap.bootstrap (Bootstrap.NewServer (Config.Load env)) r now) w)
     = world_after (run (Main.bootstrap (Main.main_locals env) r now) w).
Proof.
  intros Hok Hrw Henc.
  destruct (load_alike env) as (Htok & Hconf & Hdone & Hhost & Hport).
  set (s := Bootstrap.NewServer (Config.Load env)) in *.
  set (m := Main.main_locals env) in *.
  clearbody s m.
  destruct (files w !! Main.donePath m) as [stamp |] eqn:Hmark.
  - assert (Hs : is_Some (files w !! markerPath (ServerGate s))).
    { cbn [markerPath]. rewrite Hdone, Hmark. eauto. }
    assert (Hm : is_Some (files w !! markerPath (MainGate m))).
    { cbn [markerPath]. rewrite Hmark. eauto. }
    pose proof (serve_completed (ServerGate s) w r now Hs) as Hrs.
    pose proof (serve_completed (MainGate m) w r now Hm) as Hrm.
    cbn [serve] in Hrs, Hrm. rewrite Hrs, Hrm. now split.
  - destruct (token_check_passes (MainGate m) r Hok) as [Hs | (Hs & Heq & Hne)];
      cbn [secretToken] in *; open_gate;
      rewrite Hdone, Htok, Hconf, Hhost, Hport;
      rewrite (stat_absent _ _ Hmark), Hs; settle;
      rewrite ?Heq, ?Hne; settle;
      (destruct (files w !! Main.confPath m) as [conf |] eqn:Hfile; settle;
       [| now split]);
      specialize (Henc conf eq_refl);
      (destruct (qrcode_Encode _) as [png |]; [| congruence]);
      settle; rewrite Hrw; settle; now split.
Qed.

(** X6. An environment variable set to the empty string counts as unset, so
    no default of [config.Load] is ever empty: the port, the peer name, the
    interface and the endpoint port are non-empty for every environment, and
    the endpoint port is BOOTSTRAP_ENDPOINT_PORT, else SERVERPORT, else
    51820, the first of them that is set and non-empty. *)
Theorem loaded_defaults_are_never_empty (env : gmap string string) :
  Port (Config.Load env) <> EmptyString
  /\ PeerName (Config.Load env) <> EmptyString
  /\ WGInterface (Config.Load env) <> EmptyString
  /\ EndpointPort (Config.Load env) <> EmptyString
  /\ EndpointPort (Config.Load env)
     = (if negb (String.eqb (os_Getenv env "BOOTSTRAP_ENDPOINT_PORT") "")
        then os_Getenv env "BOOTSTRAP_ENDPOINT_PORT"
        else if negb (String.eqb (os_Getenv env "SERVERPORT") "")
             then os_Getenv env "SERVERPORT"
             else "51820")
  /\ (env !! "BOOTSTRAP_PORT" = Some EmptyString ->
      Port (Config.Load env) = "8081").
Proof.
  assert (Hget : forall key def, def <> EmptyString ->
                   Getenv env key def <> EmptyString).
  { intros key def Hdef. unfold Getenv.
    destruct (String.eqb (os_Getenv env key) "") eqn:He; cbn [negb];
      [exact Hdef | now apply String.eqb_neq]. }
  unfold Config.Load. cbn [Port PeerName WGInterface EndpointPort].
  repeat split; try (apply Hget; try discriminate).
  - apply Hget. discriminate.
  - intros Hset. unfold Getenv, os_Getenv. rewrite Hset. reflexivity.
Qed.

End GateCoverage.

(** * More about the endpoint rewrite *)

Section EndpointCoverage.
Import GoStrings Endpoint.

(** The loop is decided by the first Endpoint line. *)
Lemma rewriteFrom_first (conf : string) (lines : list string)
    (appName port : string) (k : nat) (line : string) :
  firstEndpointAt lines k line ->
  forall (todo : list string) (i : nat),
    drop i lines = todo -> (i <= k)%nat ->
    rewriteFrom conf lines appName port i todo
    = match rewriteLine line appName port with
      | Rewrite newLine => Join (<[k := newLine]> lines) nl
      | _ => conf
      end.
Proof.
  intros (Hline & Hep & Hfirst).
  assert (Hnc : rewriteLine line appName port <> Continue).
  { intros Hc. apply rewriteLine_Continue in Hc. congruence. }
  induction todo as [| l todo IH]; intros i Hdrop Hik.
  - apply (f_equal length) in Hdrop. rewrite length_drop in Hdrop.
    apply lookup_lt_Some in Hline. cbn in Hdrop. lia.
  - assert (Hl : lines !! i = Some l).
    { rewrite <- (Nat.add_0_r i), <- lookup_drop, Hdrop. reflexivity. }
    cbn [rewriteFrom].
    destruct (decide (i = k)) as [-> | Hne].
    + rewrite Hline in Hl. injection Hl as <-.
      destruct (rewriteLine line appName port); [congruence | reflexivity..].
    + assert (Hcont : rewriteLine l appName port = Continue).
      { apply rewriteLine_Continue. apply (Hfirst i l); [lia | exact Hl]. }
      rewrite Hcont. apply IH; [| lia].
      rewrite (drop_S lines l i Hl) in Hdrop. now injection Hdrop.
Qed.

Lemma rewriteFrom_none (conf : string) (lines : list string)
    (appName port : string) (todo : list string) :
  Forall (fun l => isEndpointLine l = false) todo ->
  forall i, rewriteFrom conf lines appName port i todo = conf.
Proof.
  induction 1 as [| l todo Hl _ IH]; intros i; [reflexivity |].
  cbn [rewriteFrom].
  apply (rewriteLine_Continue l appName port) in Hl. rewrite Hl. apply IH.
Qed.

Lemma rewriteLine_host (line appName port : string) :
  isEndpointLine line = true ->
  appName <> EmptyString -> port <> EmptyString ->
  rewriteLine line appName port
  = Rewrite (indentOf line +:+ hostTarget appName port).
Proof.
  intros Hep Ha Hp. unfold rewriteLine, isEndpointLine in *.
  apply orb_true_iff in Hep.
  assert (Hguard : negb (HasPrefix (TrimSpace line) "Endpoint ")
                   && negb (HasPrefix (TrimSpace line) "Endpoint=") = false).
  { destruct Hep as [-> | ->]; cbn; [reflexivity | apply andb_false_r]. }
  rewrite Hguard.
  apply String.eqb_neq in Ha, Hp. rewrite Ha, Hp. reflexivity.
Qed.

(** X7. With no Endpoint line in the text, [rewriteEndpoint] returns the
    text itself, whatever the host name and the port. *)
Theorem no_endpoint_line_no_change (conf appName port : string) :
  Forall (fun l => isEndpointLine l = false) (Split conf nl) ->
  rewriteEndpoint conf appName port = conf.
Proof. intros Hnone. unfold rewriteEndpoint. now apply rewriteFrom_none. Qed.

(** X8. With a host name and a port configured, the first Endpoint line is
    replaced by its indentation followed by
    "Endpoint = <app>.fly.dev:<port>", whatever value it had; when host name
    and port contain no line feed, that is line [i] of the output and the
    output has as many lines as the input. *)
Theorem known_host_replaces_first_endpoint
    (conf appName port : string) (i : nat) (line : string) :
  appName <> EmptyString -> port <> EmptyString ->
  firstEndpointAt (Split conf nl) i line ->
  rewriteEndpoint conf appName port
  = Join (<[i := indentOf line +:+ hostTarget appName port]> (Split conf nl)) nl
  /\ (oneLine appName -> oneLine port ->
      Split (rewriteEndpoint conf appName port) nl !! i
      = Some (indentOf line +:+ "Endpoint = " +:+ appName +:+ ".fly.dev:" +:+ port)
      /\ length (Split (rewriteEndpoint conf appName port) nl)
         = length (Split conf nl)).
Proof.
  intros Ha Hp Hfirst.
  assert (Hout : rewriteEndpoint conf appName port
                 = Join (<[i := indentOf line +:+ hostTarget appName port]>
                           (Split conf nl)) nl).
  { unfold rewriteEndpoint.
    rewrite (rewriteFrom_first conf (Split conf nl) appName port i line Hfirst
               (Split conf nl) 0%nat eq_refl ltac:(lia)).
    destruct Hfirst as (_ & Hep & _).
    now rewrite (rewriteLine_host line appName port Hep Ha Hp). }
  split; [exact Hout |].
  intros Hoa Hop. destruct Hfirst as (Hline & Hep & _).
  assert (Hall : Forall oneLine (Split conf nl)) by apply Split_oneLine.
  assert (Hl : oneLine line).
  { rewrite Forall_lookup in Hall. exact (Hall i line Hline). }
  assert (Hnew : oneLine (indentOf line +:+ hostTarget appName port)).
  { unfold oneLine, hostTarget in *. rewrite !inCutset_append, Hoa, Hop.
    unfold indentOf, slice_to. rewrite (inCutset_slice _ _ _ _ Hl). reflexivity. }
  rewrite Hout, Split_Join.
  - rewrite length_insert. split; [| reflexivity].
    apply list_lookup_insert_eq. now apply lookup_lt_Some in Hline.
  - intros Hnil. apply (f_equal length) in Hnil. rewrite length_insert in Hnil.
    apply lookup_lt_Some in Hline. cbn in Hnil. lia.
  - now apply Forall_insert.
Qed.

(** X9. A text whose first Endpoint line already reads as the rewrite would
    write it, its indentation followed by
    "Endpoint = <app>.fly.dev:<port>", comes back byte for byte. *)
Theorem normalised_text_is_a_fixed_point
    (conf appName port : string) (i : nat) (line : string) :
  appName <> EmptyString -> port <> EmptyString ->
  firstEndpointAt (Split conf nl) i line ->
  line = indentOf line +:+ hostTarget appName port ->
  rewriteEndpoint conf appName port = conf.
Proof.
  intros Ha Hp Hfirst Hline.
  unfold rewriteEndpoint.
  rewrite (rewriteFrom_first conf (Split conf nl) appName port i line Hfirst
             (Split conf nl) 0%nat eq_refl ltac:(lia)).
  destruct Hfirst as (Hi & Hep & _).
  rewrite (rewriteLine_host line appName port Hep Ha Hp), <- Hline.
  rewrite (list_insert_id _ _ _ Hi). apply Join_Split.
Qed.

(** X18. With no host name or no port configured, a first Endpoint line
    whose value has at most one colon (a host name or an IPv4 address with
    its port) or contains a closing bracket (an IPv6 address already in
    brackets) is left alone: the text comes back byte for byte. *)
Theorem plain_endpoint_left_alone
    (conf appName port : string) (i : nat) (line : string) :
  appName = EmptyString \/ port = EmptyString ->
  firstEndpointAt (Split conf nl) i line ->
  Count (currentOf line) ":" <= 1 \/ Contains (currentOf line) "]" = true ->
  rewriteEndpoint conf appName port = conf.
Proof.
  intros Hunknown Hfirst Hvalue. unfold rewriteEndpoint.
  rewrite (rewriteFrom_first conf (Split conf nl) appName port i line Hfirst
             (Split conf nl) 0%nat eq_refl ltac:(lia)).
  destruct Hfirst as (_ & Hep & _).
  unfold rewriteLine. unfold isEndpointLine in Hep. apply orb_true_iff in Hep.
  assert (Hguard : negb (HasPrefix (TrimSpace line) "Endpoint ")
                   && negb (HasPrefix (TrimSpace line) "Endpoint=") = false).
  { destruct Hep as [-> | ->]; cbn; [reflexivity | apply andb_false_r]. }
  rewrite Hguard.
  assert (Hcase1 : negb (String.eqb appName "") && negb (String.eqb port "") = false).
  { destruct Hunknown as [-> | ->]; cbn; [reflexivity | apply andb_false_r]. }
  rewrite Hcase1.
  assert (Hcase2 : (1 <? Count (currentOf line) ":")
                   && negb (Contains (currentOf line) "]") = false).
  { destruct Hvalue as [Hc | ->]; [| apply andb_false_r].
    destruct (Z.ltb_spec 1 (Count (currentOf line) ":")); [lia | reflexivity]. }
  now rewrite Hcase2.
Qed.

(** *** Trimming around bytes that are not white space *)

Lemma plainByte_eqb (c : ascii) (n : N) :
  plainByte c = true -> (128 <= n)%N -> byte_eqb c n = false.
Proof.
  unfold plainByte, byte_eqb. intros Hc Hn.
  apply andb_true_iff in Hc as [Hlt _]. apply N.ltb_lt in Hlt.
  apply N.eqb_neq. lia.
Qed.

Lemma plainByte_high (c : ascii) :
  plainByte c = true -> (128 <=? N_of_ascii c)%N = false.
Proof.
  unfold plainByte. intros Hc.
  apply andb_true_iff in Hc as [Hlt _]. apply N.ltb_lt in Hlt.
  apply N.leb_gt. lia.
Qed.

Lemma plainByte_not_space (c : ascii) : plainByte c = true -> asciiSpace c = false.
Proof.
  unfold plainByte. intros Hc. apply andb_true_iff in Hc as [_ Hs].
  now apply negb_true_iff in Hs.
Qed.

Ltac plain_facts c Hc :=
  rewrite ?(plainByte_eqb c 194 Hc), ?(plainByte_eqb c 133 Hc),
    ?(plainByte_eqb c 160 Hc), ?(plainByte_eqb c 225 Hc),
    ?(plainByte_eqb c 226 Hc), ?(plainByte_eqb c 227 Hc),
    ?(plainByte_eqb c 154 Hc), ?(plainByte_eqb c 128 Hc),
    ?(plainByte_eqb c 129 Hc), ?(plainByte_eqb c 159 Hc),
    ?(plainByte_eqb c 168 Hc), ?(plainByte_eqb c 169 Hc),
    ?(plainByte_eqb c 175 Hc), ?(plainByte_high c Hc) by lia;
  repeat match goal with
         | |- context [byte_eqb ?a ?n] => destruct (byte_eqb a n)
         | |- context [(?a <=? ?b)%N] => destruct (a <=? b)%N
         end;
  reflexivity.

(** No white-space rune contains an ASCII byte other than the six ASCII
    white-space bytes. *)
Lemma plainByte_space2 (c x : ascii) :
  plainByte c = true -> space2 c x = false /\ space2 x c = false.
Proof. intros Hc. unfold space2. split; plain_facts c Hc. Qed.

Lemma plainByte_space3 (c x y : ascii) :
  plainByte c = true ->
  space3 c x y = false /\ space3 x c y = false /\ space3 x y c = false.
Proof. intros Hc. unfold space3. repeat split; plain_facts c Hc. Qed.

Lemma TrimLeftSpace_plain (c : ascii) (r : string) :
  plainByte c = true -> TrimLeftSpace (String c r) = String c r.
Proof.
  intros Hc. cbn [TrimLeftSpace]. rewrite (plainByte_not_space c Hc).
  destruct r as [| b1 r]; [reflexivity |].
  rewrite (proj1 (plainByte_space2 c b1 Hc)).
  destruct r as [| b2 r]; [reflexivity |].
  now rewrite (proj1 (plainByte_space3 c b1 b2 Hc)).
Qed.

Lemma TrimLeftSpace_indent (ind : string) (c : ascii) (r : string) :
  (forall x, inCutset x ind = true -> asciiSpace x = true) ->
  plainByte c = true ->
  TrimLeftSpace (ind +:+ String c r) = String c r.
Proof.
  intros Hind Hc. induction ind as [| a ind IH].
  - rewrite append_nil. now apply TrimLeftSpace_plain.
  - rewrite append_cons. cbn [TrimLeftSpace].
    rewrite (Hind a) by (cbn [inCutset]; now rewrite Ascii.eqb_refl).
    apply IH. intros x Hx. apply Hind. cbn [inCutset]. rewrite Hx.
    apply orb_true_r.
Qed.

(** Scanning from the end stops at the latest at such a byte. *)
Lemma TrimLeftSpaceRev_pivot (c : ascii) (rest : string) :
  plainByte c = true ->
  forall q, exists q', TrimLeftSpaceRev (q +:+ String c rest) = q' +:+ String c rest.
Proof.
  intros Hc.
  assert (Hn : forall n q, (String.length q <= n)%nat ->
                 exists q', TrimLeftSpaceRev (q +:+ String c rest)
                            = q' +:+ String c rest).
  { induction n as [| n IH]; intros q Hlen.
    - destruct q as [| b0 q]; [| cbn in Hlen; lia].
      exists EmptyString. rewrite !append_nil. cbn [TrimLeftSpaceRev].
      rewrite (plainByte_not_space c Hc).
      destruct rest as [| b1 rest]; [reflexivity |].
      rewrite (proj2 (plainByte_space2 c b1 Hc)).
      destruct rest as [| b2 rest]; [reflexivity |].
      now rewrite (proj2 (proj2 (plainByte_space3 c b2 b1 Hc))).
    - destruct q as [| b0 q1]; [apply (IH EmptyString); cbn; lia |].
      cbn [String.length] in Hlen. rewrite append_cons. cbn [TrimLeftSpaceRev].
      destruct (asciiSpace b0); [apply IH; lia |].
      destruct q1 as [| b1 q2].
      + rewrite append_nil. rewrite (proj1 (plainByte_space2 c b0 Hc)).
        exists (String b0 EmptyString).
        destruct rest as [| b2 rest]; [reflexivity |].
        now rewrite (proj1 (proj2 (plainByte_space3 c b2 b0 Hc))).
      + cbn [String.length] in Hlen. rewrite append_cons.
        destruct (space2 b1 b0); [apply IH; lia |].
        destruct q2 as [| b2 q3].
        * rewrite append_nil. rewrite (proj1 (plainByte_space3 c b1 b0 Hc)).
          now exists (String b0 (String b1 EmptyString)).
        * cbn [String.length] in Hlen. rewrite append_cons.
          destruct (space3 b2 b1 b0); [apply IH; lia |].
          now exists (String b0 (String b1 (String b2 q3))). }
  intros q. apply (Hn (String.length q)). lia.
Qed.

Lemma rev_onto_append (s acc : string) : rev_onto s acc = reverse s +:+ acc.
Proof.
  unfold reverse. revert acc. induction s as [| c s IH]; intros acc; [reflexivity |].
  cbn [rev_onto]. rewrite (IH (String c acc)), (IH (String c "")).
  now rewrite append_assoc.
Qed.

Lemma reverse_cons (c : ascii) (s : string) :
  reverse (String c s) = reverse s +:+ String c "".
Proof. unfold reverse at 1. cbn [rev_onto]. apply rev_onto_append. Qed.

Lemma reverse_append (a b : string) : reverse (a +:+ b) = reverse b +:+ reverse a.
Proof.
  induction a as [| c a IH].
  - rewrite append_nil. now rewrite append_empty_r.
  - rewrite append_cons, !reverse_cons, IH. now rewrite append_assoc.
Qed.

Lemma reverse_involutive (s : string) : reverse (reverse s) = s.
Proof.
  induction s as [| c s IH]; [reflexivity |].
  rewrite reverse_cons, reverse_append, IH. reflexivity.
Qed.

Lemma TrimRightSpace_pivot (c : ascii) (x y : string) :
  plainByte c = true ->
  exists y', TrimRightSpace (x +:+ String c y) = x +:+ String c y'.
Proof.
  intros Hc. unfold TrimRightSpace.
  rewrite reverse_append, reverse_cons, append_assoc.
  change (String c "" +:+ reverse x) with (String c (reverse x)).
  destruct (TrimLeftSpaceRev_pivot c (reverse x) Hc (reverse y)) as [q' ->].
  exists (reverse q').
  rewrite reverse_append, reverse_cons, reverse_involutive, append_assoc.
  reflexivity.
Qed.

(** Trimming a line made of white-space indentation, a plain byte, any
    bytes, a plain byte and a tail: the indentation goes, and everything up
    to the second plain byte stays. *)
Lemma TrimSpace_pivot (ind : string) (c1 c2 : ascii) (x y : string) :
  (forall b, inCutset b ind = true -> asciiSpace b = true) ->
  plainByte c1 = true -> plainByte c2 = true ->
  exists y',
    TrimSpace (ind +:+ String c1 (x +:+ String c2 y)) = String c1 (x +:+ String c2 y').
Proof.
  intros Hind H1 H2. unfold TrimSpace.
  rewrite (TrimLeftSpace_indent ind c1 _ Hind H1).
  destruct (TrimRightSpace_pivot c2 (String c1 x) y H2) as [y' Hy].
  exists y'. rewrite <- append_cons. exact Hy.
Qed.

(** *** Rewriting what has been rewritten *)

Lemma indent_is_space (line : string) (x : ascii) :
  inCutset x (indentOf line) = true -> asciiSpace x = true.
Proof.
  rewrite indentOf_takeCutset. intros Hx.
  apply takeCutset_within in Hx. unfold spaceTab in Hx. cbn [inCutset] in Hx.
  rewrite orb_false_r in Hx. apply orb_true_iff in Hx as [Hx | Hx];
    apply Ascii.eqb_eq in Hx; subst x; reflexivity.
Qed.

Lemma takeCutset_again (s cutset : string) (c : ascii) (r : string) :
  inCutset c cutset = false ->
  takeCutset (takeCutset s cutset +:+ String c r) cutset = takeCutset s cutset.
Proof.
  intros Hc. induction s as [| a s IH].
  - cbn [takeCutset]. rewrite append_nil. cbn [takeCutset]. now rewrite Hc.
  - cbn [takeCutset]. destruct (inCutset a cutset) eqn:Ha.
    + rewrite append_cons. cbn [takeCutset]. now rewrite Ha, IH.
    + rewrite append_nil. cbn [takeCutset]. now rewrite Hc.
Qed.

(** A line written by the rewrite is an Endpoint line with the same
    indentation. *)
Lemma rewritten_line_is_endpoint (line t : string) :
  isEndpointLine (indentOf line +:+ "Endpoint = " +:+ t) = true
  /\ indentOf (indentOf line +:+ "Endpoint = " +:+ t) = indentOf line.
Proof.
  split.
  - unfold isEndpointLine.
    change ("Endpoint = " +:+ t)
      with (String "E" ("ndpoint " +:+ String "=" (" " +:+ t))).
    destruct (TrimSpace_pivot (indentOf line) "E" "=" "ndpoint " (" " +:+ t)
                (indent_is_space line) eq_refl eq_refl) as [y' ->].
    change (String "E" ("ndpoint " +:+ String "=" y'))
      with ("Endpoint " +:+ String "=" y').
    now rewrite HasPrefix_append.
  - rewrite (indentOf_takeCutset (indentOf line +:+ _)), indentOf_takeCutset.
    change ("Endpoint = " +:+ t) with (String "E" ("ndpoint = " +:+ t)).
    now apply takeCutset_again.
Qed.

Lemma substring_all (s : string) : String.substring 0 (String.length s) s = s.
Proof.
  induction s as [| c s IH]; [reflexivity |].
  cbn [String.length String.substring]. now rewrite IH.
Qed.

Lemma substring_suffix (a b : string) :
  String.substring (String.length a) (String.length b) (a +:+ b) = b.
Proof.
  induction a as [| c a IH]; [rewrite append_nil; apply substring_all |].
  rewrite append_cons. cbn [String.length String.substring]. exact IH.
Qed.

Lemma TrimPrefix_append (pre s : string) : TrimPrefix (pre +:+ s) pre = s.
Proof.
  unfold TrimPrefix. rewrite HasPrefix_append.
  unfold slice_from, slice, len. rewrite length_append.
  replace (Z.to_nat (Z.of_nat (String.length pre))) with (String.length pre) by lia.
  replace (Z.to_nat (Z.of_nat (String.length pre + String.length s)
                     - Z.of_nat (String.length pre)))
    with (String.length s) by lia.
  apply substring_suffix.
Qed.

Lemma Contains_pivot (a b : string) (c : ascii) :
  Contains (a +:+ String c b) (String c "") = true.
Proof.
  induction a as [| x a IH].
  - rewrite append_nil. cbn [Contains]. rewrite HasPrefix_byte, Ascii.eqb_refl.
    reflexivity.
  - rewrite append_cons. cbn [Contains]. rewrite IH. apply orb_true_r.
Qed.

(** The value of a bracketed line contains a closing bracket. *)
Lemma bracketed_value (line host p : string) :
  Contains (currentOf (indentOf line +:+ "Endpoint = [" +:+ host +:+ "]:" +:+ p)) "]"
  = true.
Proof.
  unfold currentOf.
  change ("Endpoint = [" +:+ host +:+ "]:" +:+ p)
    with (String "E" ("ndpoint = [" +:+ host +:+ String "]" (":" +:+ p))).
  rewrite <- (append_assoc "ndpoint = [" host).
  destruct (TrimSpace_pivot (indentOf line) "E" "]" ("ndpoint = [" +:+ host)
              (":" +:+ p) (indent_is_space line) eq_refl eq_refl) as [y1 ->].
  rewrite (append_assoc "ndpoint = [" host).
  change (String "E" ("ndpoint = [" +:+ host +:+ String "]" y1))
    with ("Endpoint" +:+ " = [" +:+ host +:+ String "]" y1).
  rewrite TrimPrefix_append.
  change (" = [" +:+ host +:+ String "]" y1)
    with (" " +:+ String "=" (" [" +:+ host +:+ String "]" y1)).
  rewrite <- (append_assoc " [" host).
  destruct (TrimSpace_pivot " " "=" "]" (" [" +:+ host) y1) as [y2 ->];
    [| reflexivity | reflexivity |].
  { intros b Hb. cbn [inCutset] in Hb. rewrite orb_false_r in Hb.
    apply Ascii.eqb_eq in Hb. now subst b. }
  rewrite (append_assoc " [" host).
  change (TrimLeft (String "=" (" [" +:+ host +:+ String "]" y2)) " =")
    with (String "[" (host +:+ String "]" y2)).
  cbn [Contains]. rewrite Contains_pivot. apply orb_true_r.
Qed.

(** The two shapes a rewritten line can have. *)
Lemma rewriteLine_shapes (line appName port newLine : string) :
  rewriteLine line appName port = Rewrite newLine ->
  (appName <> EmptyString /\ port <> EmptyString
   /\ newLine = indentOf line +:+ hostTarget appName port)
  \/ ((appName = EmptyString \/ port = EmptyString)
      /\ exists host p,
           newLine = indentOf line +:+ "Endpoint = [" +:+ host +:+ "]:" +:+ p).
Proof.
  unfold rewriteLine.
  destruct (negb (HasPrefix (TrimSpace line) "Endpoint ")
            && negb (HasPrefix (TrimSpace line) "Endpoint=")); [discriminate |].
  destruct (string_eq_cases appName "") as [[Ha Ea] | [Ha Ea]];
    destruct (string_eq_cases port "") as [[Hp Ep] | [Hp Ep]];
    rewrite Ea, Ep; cbn [negb andb];
    try (intros Hrw; injection Hrw as <-; left; auto; fail);
    (repeat match goal with
            | |- context [if ?b then _ else _] => destruct b
            end; try discriminate;
     intros Hrw; injection Hrw as <-; right; split; [auto | eauto]).
Qed.

(** Rewriting a rewritten line gives the same line, or leaves it alone. *)
Lemma rewriteLine_again (line appName port newLine : string) :
  rewriteLine line appName port = Rewrite newLine ->
  rewriteLine newLine appName port = Rewrite newLine
  \/ rewriteLine newLine appName port = Keep.
Proof.
  intros Hrw.
  destruct (rewriteLine_shapes line appName port newLine Hrw)
    as [(Ha & Hp & ->) | (Hunknown & host & p & ->)].
  - left. unfold hostTarget.
    destruct (rewritten_line_is_endpoint line (appName +:+ ".fly.dev:" +:+ port))
      as [Hep Hind].
    rewrite (rewriteLine_host _ appName port Hep Ha Hp), Hind. reflexivity.
  - right.
    destruct (rewritten_line_is_endpoint line ("[" +:+ host +:+ "]:" +:+ p))
      as [Hep _].
    change ("Endpoint = " +:+ "[" +:+ host +:+ "]:" +:+ p)
      with ("Endpoint = [" +:+ host +:+ "]:" +:+ p) in Hep.
    pose proof (bracketed_value line host p) as Hbr.
    unfold rewriteLine. unfold isEndpointLine in Hep.
    apply orb_true_iff in Hep.
    assert (Hguard :
      negb (HasPrefix
              (TrimSpace (indentOf line +:+ "Endpoint = [" +:+ host +:+ "]:" +:+ p))
              "Endpoint ")
      && negb (HasPrefix
                 (TrimSpace (indentOf line +:+ "Endpoint = [" +:+ host +:+ "]:" +:+ p))
                 "Endpoint=") = false).
    { destruct Hep as [-> | ->]; cbn; [reflexivity | apply andb_false_r]. }
    rewrite Hguard.
    assert (Hcase1 : negb (String.eqb appName "") && negb (String.eqb port "") = false).
    { destruct Hunknown as [-> | ->]; cbn; [reflexivity | apply andb_false_r]. }
    rewrite Hcase1, Hbr. cbn [negb]. now rewrite andb_false_r.
Qed.

(** X10. Rewriting is idempotent: for a host name and a port without line
    feeds, applying [rewriteEndpoint] to its own output changes nothing. *)
Theorem rewriteEndpoint_idempotent (conf appName port : string) :
  oneLine appName -> oneLine port ->
  rewriteEndpoint (rewriteEndpoint conf appName port) appName port
  = rewriteEndpoint conf appName port.
Proof.
  intros Hoa Hop.
  destruct (rewriteFrom_spec conf (Split conf nl) appName port (Split conf nl) 0%nat)
    as [Hsame | (k & line & newLine & Hline & Hrw & Hfirst & Hout)].
  - reflexivity.
  - intros j l Hj. lia.
  - change (rewriteEndpoint conf appName port = conf) in Hsame.
    now rewrite !Hsame.
  - change (rewriteEndpoint conf appName port
            = Join (<[k := newLine]> (Split conf nl)) nl) in Hout.
    rewrite Hout.
    assert (Hall : Forall oneLine (Split conf nl)) by apply Split_oneLine.
    assert (Hl : oneLine line).
    { rewrite Forall_lookup in Hall. exact (Hall k line Hline). }
    destruct (rewriteLine_Rewrite line appName port newLine Hrw)
      as (_ & target & Hnew & _ & Hone).
    pose proof (lookup_lt_Some _ _ _ Hline) as Hk.
    assert (Hsplit : Split (Join (<[k := newLine]> (Split conf nl)) nl) nl
                     = <[k := newLine]> (Split conf nl)).
    { apply Split_Join.
      - intros Hnil. apply (f_equal length) in Hnil.
        rewrite length_insert in Hnil. cbn in Hnil. lia.
      - apply Forall_insert; [exact Hall | now apply Hone]. }
    assert (Hep : isEndpointLine newLine = true).
    { destruct (rewriteLine_shapes line appName port newLine Hrw)
        as [(_ & _ & ->) | (_ & host & p & ->)].
      - apply (rewritten_line_is_endpoint line).
      - apply (rewritten_line_is_endpoint line ("[" +:+ host +:+ "]:" +:+ p)). }
    assert (Hfirst' : firstEndpointAt (<[k := newLine]> (Split conf nl)) k newLine).
    { split; [now apply list_lookup_insert_eq | split; [exact Hep |]].
      intros j l Hj Hjl. rewrite list_lookup_insert_ne in Hjl by lia.
      now apply (Hfirst j l). }
    unfold rewriteEndpoint. rewrite Hsplit.
    rewrite (rewriteFrom_first _ _ appName port k newLine Hfirst' _ 0%nat eq_refl
               ltac:(lia)).
    destruct (rewriteLine_again line appName port newLine Hrw) as [-> | ->];
      [| reflexivity].
    now rewrite list_insert_insert_eq.
Qed.

End EndpointCoverage.

(** * More about the keepalive loop *)

Section KeepaliveCoverage.
Import GoStrings GoStrconv Keepalive Wireguard.

Variables (url : string) (start : Time).

Lemma loopFrom_cons (st : Tracker) (t : Tick) (ticks : list Tick) :
  loopFrom url start st (t :: ticks)
  = match fst (iteration url start st t) with
    | Return => (Stopped, snd (iteration url start st t))
    | Next st' =>
        (fst (loopFrom url start st' ticks),
         snd (iteration url start st t) ++ snd (loopFrom url start st' ticks))
    end.
Proof.
  cbn [loopFrom]. destruct (iteration url start st t) as [[st' |] evs];
    cbn [fst snd]; [| reflexivity].
  destruct (loopFrom url start st' ticks); reflexivity.
Qed.

(** X11. One ping per iteration, none on the last: while the loop is
    running it has sent exactly as many pings as it has made iterations, a
    failed ping included; when it has returned, it returned on some
    iteration and has sent one ping for each iteration before that one. *)
Theorem one_ping_per_iteration (st0 : Tracker) (ticks : list Tick) :
  match fst (loopFrom url start st0 ticks) with
  | Running _ => pings (snd (loopFrom url start st0 ticks)) = length ticks
  | Stopped =>
      exists pre t post st evs,
        ticks = pre ++ t :: post
        /\ loopFrom url start st0 pre = (Running st, evs)
        /\ fst (iteration url start st t) = Return
        /\ pings (snd (loopFrom url start st0 ticks)) = length pre
  end.
Proof.
  revert st0. induction ticks as [| t ticks IH]; intros st0; [reflexivity |].
  rewrite loopFrom_cons.
  pose proof (iteration_pings url start st0 t) as Hp.
  destruct (fst (iteration url start st0 t)) as [st1 |] eqn:Hit; cbn [fst snd].
  - specialize (IH st1).
    destruct (fst (loopFrom url start st1 ticks)) as [st |] eqn:Hrest.
    + rewrite pings_app, Hp, IH. reflexivity.
    + destruct IH as (pre & t' & post & st & evs & -> & Hpre & Hret & Hcount).
      exists (t :: pre), t', post, st, (snd (iteration url start st0 t) ++ evs).
      repeat split; auto.
      * rewrite loopFrom_cons, Hit, Hpre. reflexivity.
      * rewrite pings_app, Hp, Hcount. reflexivity.
  - exists [], t, ticks, st0, []. repeat split; auto.
Qed.

Lemma iteration_tracked (st st' : Tracker) (t : Tick) :
  tracked start st ->
  fst (iteration url start st t) = Next st' ->
  tracked start st'
  /\ (connected st = true ->
      connected st' = true /\ connectedSince st' = connectedSince st).
Proof.
  intros (Hidle & Hoff & Hon). unfold iteration.
  destruct (Z.leb_spec (clock t - start) startupWindow) as [Hin | Hout].
  { cbn. intros [= <-]. repeat split; auto. }
  destruct (wgErr (wg t)).
  { cbn. intros [= <-]. repeat split; auto. }
  destruct (wgNoHandshake (wg t)).
  { destruct (connected st); discriminate. }
  cbn [connected connectedSince].
  destruct (Z.ltb_spec maxIdle (wgIdle (wg t))) as [Hover | Hfresh].
  { destruct (connected st); discriminate. }
  destruct (connected st) eqn:Hc; cbn; intros [= <-]; unfold tracked; cbn;
    repeat split; auto; try discriminate; try lia.
Qed.

Lemma initial_tracked : tracked start initial.
Proof.
  unfold tracked, initial. cbn. repeat split; try discriminate.
Qed.

Lemma loop_tracked (ticks : list Tick) (st0 st : Tracker) :
  tracked start st0 ->
  fst (loopFrom url start st0 ticks) = Running st ->
  tracked start st
  /\ (connected st0 = true ->
      connected st = true /\ connectedSince st = connectedSince st0).
Proof.
  revert st0. induction ticks as [| t ticks IH]; intros st0 Hinv Hrun.
  - cbn in Hrun. injection Hrun as <-. auto.
  - rewrite loopFrom_cons in Hrun.
    destruct (fst (iteration url start st0 t)) as [st1 |] eqn:Hit;
      [| discriminate].
    cbn [fst] in Hrun.
    destruct (iteration_tracked st0 st1 t Hinv Hit) as [Hinv1 Hkeep].
    destruct (IH st1 Hinv1 Hrun) as [Hinv' Hkeep'].
    split; [exact Hinv' |]. intros Hc.
    destruct (Hkeep Hc) as [Hc1 Hs1]. destruct (Hkeep' Hc1) as [Hc' Hs'].
    split; congruence.
Qed.

(** X13. Started from its initial state, the loop keeps its session record
    sound for as long as it runs: the last idle time seen never exceeds
    [maxIdle], a loop that has not inferred a session still has its initial
    state, and an inferred session began after the startup window. *)
Theorem session_record_is_sound (ticks : list Tick) (st : Tracker) :
  fst (loopFrom url start initial ticks) = Running st ->
  lastIdle st <= maxIdle
  /\ (connected st = false -> st = initial)
  /\ (connected st = true -> startupWindow < connectedSince st - start).
Proof.
  intros Hrun. exact (proj1 (loop_tracked ticks initial st initial_tracked Hrun)).
Qed.

(** X14. A session, once inferred, lasts until the loop returns, and its
    start is never moved: if [connected] holds in a state the loop reached
    from its initial state, then after any further iterations that leave the
    loop running [connected] still holds and [connectedSince] is the
    same. *)
Theorem session_start_is_fixed
    (pre more : list Tick) (st st' : Tracker) :
  fst (loopFrom url start initial pre) = Running st ->
  connected st = true ->
  fst (loopFrom url start st more) = Running st' ->
  connected st' = true /\ connectedSince st' = connectedSince st.
Proof.
  intros Hpre Hc Hrun.
  destruct (loop_tracked pre initial st initial_tracked Hpre) as [Hinv _].
  destruct (loop_tracked more st st' Hinv Hrun) as [_ Hkeep]. now apply Hkeep.
Qed.

(** *** Reading the handshake times *)

Lemma scanLines_cons (line : string) (lines : list string) (last : Z) :
  scanLines (line :: lines) last
  = match handshakeOf line with
    | Some ts => if last <? ts then scanLines lines ts else scanLines lines last
    | None => scanLines lines last
    end.
Proof.
  cbn [scanLines]. unfold handshakeOf.
  destruct (Fields line) as [| f0 [| f1 [| f2 fs]]]; try reflexivity.
  destruct (ParseInt f1); reflexivity.
Qed.

(** The scan computes the largest timestamp, or keeps what it started
    with. *)
Lemma scanLines_max (lines : list string) (last : Z) :
  last <= scanLines lines last
  /\ (forall line ts, In line lines -> handshakeOf line = Some ts ->
                      ts <= scanLines lines last)
  /\ (scanLines lines last = last
      \/ exists line, In line lines /\ handshakeOf line = Some (scanLines lines last)).
Proof.
  revert last. induction lines as [| line lines IH]; intros last.
  - cbn. repeat split; [lia | tauto | now left].
  - rewrite scanLines_cons.
    destruct (handshakeOf line) as [ts |] eqn:Hts.
    + destruct (Z.ltb_spec last ts) as [Hlt | Hge].
      * destruct (IH ts) as (Hle & Hall & Hwit). repeat split; [lia | |].
        -- intros l t [<- | Hin] Hl; [| eauto].
           rewrite Hts in Hl. injection Hl as <-. exact Hle.
        -- right. destruct Hwit as [-> | (l & Hin & Hl)].
           ++ exists line. split; [now left | exact Hts].
           ++ exists l. split; [now right | exact Hl].
      * destruct (IH last) as (Hle & Hall & Hwit). repeat split; [lia | |].
        -- intros l t [<- | Hin] Hl; [| eauto].
           rewrite Hts in Hl. injection Hl as <-. lia.
        -- destruct Hwit as [-> | (l & Hin & Hl)]; [now left | right].
           exists l. split; [now right | exact Hl].
    + destruct (IH last) as (Hle & Hall & Hwit). repeat split; [lia | |].
      * intros l t [<- | Hin] Hl; [congruence | eauto].
      * destruct Hwit as [-> | (l & Hin & Hl)]; [now left | right].
        exists l. split; [now right | exact Hl].
Qed.

(** X15. What [getWireGuardIdleDuration] reports.  A failed command gives
    the error and neither flag nor duration.  Otherwise there is no error;
    "no handshake" is reported exactly when no line of the trimmed output has
    two fields of which the second parses to a positive timestamp; and when
    it is not reported, the duration is the time since the largest such
    timestamp, which some line carries.  Lines with another number of
    fields, with a second field that does not parse, or with a timestamp
    that is not positive are passed over. *)
Theorem handshake_report (sinceUnix : Z -> Duration) (output : string + string) :
  match output with
  | inr err =>
      getWireGuardIdleDuration sinceUnix output = mkWgStatus 0 false (Some err)
  | inl out =>
      let lines := Split (TrimSpace out) nl in
      let st := getWireGuardIdleDuration sinceUnix output in
      wgErr st = None
      /\ (wgNoHandshake st = true <->
          forall line ts, In line lines -> handshakeOf line = Some ts -> ts <= 0)
      /\ (wgNoHandshake st = true -> wgIdle st = 0)
      /\ (wgNoHandshake st = false ->
          0 < latestHandshake out
          /\ wgIdle st = sinceUnix (latestHandshake out)
          /\ (exists line, In line lines
                           /\ handshakeOf line = Some (latestHandshake out))
          /\ forall line ts, In line lines -> handshakeOf line = Some ts ->
                             ts <= latestHandshake out)
  end.
Proof.
  destruct output as [out | err]; [| reflexivity].
  cbn [getWireGuardIdleDuration]. cbv zeta.
  unfold latestHandshake.
  destruct (scanLines_max (Split (TrimSpace out) nl) 0) as (Hle & Hall & Hwit).
  destruct (Z.eqb_spec (scanLines (Split (TrimSpace out) nl) 0) 0) as [Hz | Hnz];
    cbn [wgErr wgNoHandshake wgIdle].
  - repeat split; try discriminate.
    intros _ line ts Hin Hts. rewrite <- Hz. eauto.
  - split; [reflexivity | split; [| split; [discriminate |]]].
    + split; [discriminate |]. intros Hnone. exfalso.
      destruct Hwit as [Hsame | (line & Hin & Hts)]; [lia |].
      specialize (Hnone line _ Hin Hts). lia.
    + intros _. repeat split; [lia | | exact Hall].
      destruct Hwit as [Hsame | Hex]; [lia | exact Hex].
Qed.

(** X16. After the startup window, the loop returns on an iteration exactly
    when the [wg] command succeeded and its output either holds no positive
    handshake time or puts the latest one more than [maxIdle] ago; a failed
    command never ends the loop. *)
Theorem command_outcome_decides
    (sinceUnix : Z -> Duration) (st0 st : Tracker) (pre : list Tick)
    (evs : list Event) (now : Time) (output : string + string) (ok : bool) :
  loopFrom url start st0 pre = (Running st, evs) ->
  startupWindow < now - start ->
  (fst (loopFrom url start st0 (pre ++ [tickOf sinceUnix now output ok])) = Stopped
   <-> exists out,
         output = inl out
         /\ (latestHandshake out = 0
             \/ maxIdle < sinceUnix (latestHandshake out))).
Proof.
  intros Hrun Hout.
  rewrite (loopFrom_snoc url start pre st0 st evs _ Hrun). cbn [fst].
  transitivity (fst (iteration url start st (tickOf sinceUnix now output ok)) = Return).
  { destruct (fst (iteration url start st (tickOf sinceUnix now output ok)));
      cbn; split; intros Hx; (discriminate Hx || reflexivity). }
  rewrite iteration_returns_iff. unfold tickOf. cbn [clock wg].
  destruct output as [out | err]; cbn [getWireGuardIdleDuration]; cbv zeta.
  - destruct (Z.eqb_spec (latestHandshake out) 0) as [Hz | Hnz];
      cbn [wgErr wgNoHandshake wgIdle].
    + split; [intros _; exists out; auto | intros _; auto].
    + split.
      * intros (_ & _ & [Hx | Hidle]); [discriminate |]. exists out. auto.
      * intros (out' & [= <-] & [Hz | Hidle]); [lia | auto].
  - cbn [wgErr]. split.
    + intros (_ & Hx & _). discriminate.
    + intros (out & Hx & _). discriminate.
Qed.

End KeepaliveCoverage.

(** * The handshake reader on what [wg] prints *)

Section WireguardCoverage.
Import GoStrings GoStrconv Endpoint Keepalive Wireguard.

Lemma digit_cases (d : Z) :
  0 <= d <= 9 ->
  d = 0 \/ d = 1 \/ d = 2 \/ d = 3 \/ d = 4 \/ d = 5 \/ d = 6 \/ d = 7
  \/ d = 8 \/ d = 9.
Proof. lia. Qed.

Lemma digitChar_facts (d : Z) :
  0 <= d <= 9 ->
  plainByte (digitChar d) = true
  /\ digitOf (digitChar d) = Some d
  /\ Ascii.eqb (digitChar d) "+" = false
  /\ Ascii.eqb (digitChar d) "-" = false.
Proof.
  intros Hd.
  destruct (digit_cases d Hd) as [-> | [-> | [-> | [-> | [-> | [-> | [-> | [-> | [-> | ->]]]]]]]]];
    repeat split; reflexivity.
Qed.

Lemma parseDigits_digits (ds : list Z) (n : Z) :
  Forall (fun d => 0 <= d <= 9) ds ->
  parseDigits (digitsString ds) n = Some (fold_left (fun n d => 10 * n + d) ds n).
Proof.
  intros Hds. revert n. induction Hds as [| d ds Hd _ IH]; intros n; [reflexivity |].
  cbn [digitsString parseDigits fold_left].
  destruct (digitChar_facts d Hd) as (_ & -> & _). apply IH.
Qed.

Lemma digits_fold_nonneg (ds : list Z) (n : Z) :
  Forall (fun d => 0 <= d <= 9) ds -> 0 <= n ->
  0 <= fold_left (fun n d => 10 * n + d) ds n.
Proof.
  intros Hds. revert n. induction Hds as [| d ds Hd _ IH]; intros n Hn; [exact Hn |].
  cbn [fold_left]. apply IH. lia.
Qed.

(** Digits in, value out: a non-empty run of decimal digits parses to its
    value when that fits, and is a range error when it does not. *)
Lemma ParseInt_digits (ds : list Z) :
  ds <> [] -> Forall (fun d => 0 <= d <= 9) ds ->
  ParseInt (digitsString ds)
  = if digitsValue ds <? 2 ^ 63 then Parsed (digitsValue ds) else ErrRange.
Proof.
  intros Hne Hds. destruct ds as [| d ds]; [congruence |].
  pose proof (parseDigits_digits (d :: ds) 0 Hds) as Hparse.
  pose proof (digits_fold_nonneg (d :: ds) 0 Hds ltac:(lia)) as Hpos.
  fold (digitsValue (d :: ds)) in Hparse, Hpos.
  inversion Hds as [| ? ? Hd _]; subst.
  destruct (digitChar_facts d Hd) as (_ & _ & Hplus & Hminus).
  cbn [digitsString] in Hparse |- *.
  unfold ParseInt. rewrite Hplus, Hminus.
  unfold ParseUint. rewrite Hparse.
  destruct (Z.ltb_spec (digitsValue (d :: ds)) (2 ^ 64)) as [H64 | H64];
    destruct (Z.ltb_spec (digitsValue (d :: ds)) (2 ^ 63)) as [H63 | H63];
    cbn [negb andb]; try lia.
  - destruct (Z.leb_spec (2 ^ 63) (digitsValue (d :: ds))); [lia | reflexivity].
  - destruct (Z.leb_spec (2 ^ 63) (digitsValue (d :: ds))); [reflexivity | lia].
  - reflexivity.
Qed.

(** What [ParseInt] accepts fits in 64 bits. *)
Lemma ParseInt_range (s : string) (n : Z) :
  ParseInt s = Parsed n -> - 2 ^ 63 <= n < 2 ^ 63.
Proof.
  unfold ParseInt. destruct s as [| c s]; [discriminate |].
  assert (Hu : forall t m, ParseUint t = Parsed m -> 0 <= m).
  { intros t m. unfold ParseUint. destruct t as [| x t]; [discriminate |].
    destruct (parseDigits (String x t) 0) as [v |] eqn:Hv; [| discriminate].
    destruct (v <? 2 ^ 64); [| discriminate]. intros [= <-].
    assert (Hg : forall u k w, 0 <= k -> parseDigits u k = Some w -> 0 <= w).
    { induction u as [| y u IHu]; intros k w Hk; cbn [parseDigits].
      - now intros [= <-].
      - unfold digitOf. destruct ((48 <=? N_of_ascii y)%N && (N_of_ascii y <=? 57)%N)
          eqn:Hy; [| discriminate].
        apply andb_true_iff in Hy as [Hlo Hhi].
        apply N.leb_le in Hlo. apply IHu. lia. }
    now apply (Hg (String x t) 0 v). }
  destruct (Ascii.eqb c "+"); [| destruct (Ascii.eqb c "-")];
    match goal with
    | |- context [ParseUint ?t] =>
        destruct (ParseUint t) as [m | |] eqn:Hm; try discriminate;
        try (apply Hu in Hm)
    end; cbn [negb andb];
    repeat match goal with
           | |- context [(?a <=? ?b)] => destruct (Z.leb_spec a b)
           | |- context [(?a <? ?b)] => destruct (Z.ltb_spec a b)
           end; try discriminate; intros [= <-]; lia.
Qed.

Lemma spaceWidth_plain (c : ascii) (s : string) :
  plainByte c = true -> spaceWidth (String c s) = 0%nat.
Proof.
  intros Hc. cbn [spaceWidth]. rewrite (plainByte_not_space c Hc).
  destruct s as [| b1 s]; [reflexivity |].
  rewrite (proj1 (plainByte_space2 c b1 Hc)).
  destruct s as [| b2 s]; [reflexivity |].
  now rewrite (proj1 (plainByte_space3 c b1 b2 Hc)).
Qed.

Lemma fields_plain (a rest cur : string) :
  allPlain a = true ->
  fields_from (a +:+ rest) 0 cur = fields_from rest 0 (cur +:+ a).
Proof.
  revert cur. induction a as [| c a IH]; intros cur Ha.
  - now rewrite append_nil, append_empty_r.
  - cbn [allPlain] in Ha. apply andb_true_iff in Ha as [Hc Ha].
    rewrite append_cons. cbn [fields_from].
    rewrite (spaceWidth_plain c _ Hc), (IH _ Ha), append_assoc. reflexivity.
Qed.

(** A key, a tab and a field make two fields. *)
Lemma Fields_key_tab (key field : string) :
  key <> EmptyString -> allPlain key = true ->
  field <> EmptyString -> allPlain field = true ->
  Fields (key +:+ tab +:+ field) = [key; field].
Proof.
  intros Hk Hkp Hf Hfp. unfold Fields.
  rewrite (fields_plain key _ "" Hkp), append_nil.
  unfold tab. rewrite append_cons, append_nil. cbn [fields_from spaceWidth].
  change (asciiSpace (byte 9)) with true. cbv iota.
  apply String.eqb_neq in Hk. rewrite Hk.
  rewrite <- (append_empty_r field) at 1.
  rewrite (fields_plain field "" "" Hfp), append_nil. cbn [fields_from].
  apply String.eqb_neq in Hf. now rewrite Hf.
Qed.

Lemma digitsString_plain (ds : list Z) :
  Forall (fun d => 0 <= d <= 9) ds -> allPlain (digitsString ds) = true.
Proof.
  induction 1 as [| d ds Hd _ IH]; [reflexivity |].
  cbn [digitsString allPlain]. rewrite IH.
  now destruct (digitChar_facts d Hd) as (-> & _).
Qed.

Lemma handshakeOf_peer (peer : string * list Z) :
  wellFormedPeer peer -> handshakeOf (peerLine peer) = Some (digitsValue (snd peer)).
Proof.
  intros (Hk & Hkp & Hne & Hds & Hfit). unfold handshakeOf, peerLine.
  rewrite Fields_key_tab; auto using digitsString_plain.
  - rewrite (ParseInt_digits _ Hne Hds).
    now destruct (Z.ltb_spec (digitsValue (snd peer)) (2 ^ 63)); [| lia].
  - destruct (snd peer); [congruence | discriminate].
Qed.

Lemma scanLines_peers (peers : list (string * list Z)) (last : Z) :
  Forall wellFormedPeer peers ->
  scanLines (map peerLine peers) last
  = fold_left Z.max (map (fun peer => digitsValue (snd peer)) peers) last.
Proof.
  intros Hall. revert last. induction Hall as [| peer peers Hp _ IH]; intros last;
    [reflexivity |].
  cbn [map fold_left]. rewrite scanLines_cons, (handshakeOf_peer peer Hp).
  destruct (Z.ltb_spec last (digitsValue (snd peer))) as [Hlt | Hge]; rewrite IH.
  - now rewrite Z.max_r by lia.
  - now rewrite Z.max_l by lia.
Qed.

(** *** Trimming and splitting the output *)

Lemma TrimLeftSpaceRev_plain (c : ascii) (r : string) :
  plainByte c = true -> TrimLeftSpaceRev (String c r) = String c r.
Proof.
  intros Hc. cbn [TrimLeftSpaceRev]. rewrite (plainByte_not_space c Hc).
  destruct r as [| b1 r]; [reflexivity |].
  rewrite (proj2 (plainByte_space2 c b1 Hc)).
  destruct r as [| b2 r]; [reflexivity |].
  now rewrite (proj2 (proj2 (plainByte_space3 c b2 b1 Hc))).
Qed.

Lemma TrimLeftSpaceRev_space (b : ascii) (r : string) :
  asciiSpace b = true -> TrimLeftSpaceRev (String b r) = TrimLeftSpaceRev r.
Proof. intros Hb. cbn [TrimLeftSpaceRev]. now rewrite Hb. Qed.

(** A text whose first and last bytes are not white space, followed by a
    line feed: trimming removes the line feed and nothing else. *)
Lemma TrimSpace_final_newline (s r x : string) (c1 c2 : ascii) :
  s = String c1 r -> s = x +:+ String c2 "" ->
  plainByte c1 = true -> plainByte c2 = true ->
  TrimSpace (s +:+ nl) = s.
Proof.
  intros Hstart Hend H1 H2. unfold TrimSpace.
  rewrite Hstart at 1. rewrite append_cons, (TrimLeftSpace_plain c1 _ H1).
  rewrite <- append_cons, <- Hstart.
  unfold TrimRightSpace. rewrite Hend at 1.
  rewrite append_assoc, reverse_append.
  change (reverse (String c2 "" +:+ nl)) with (String (byte 10) (String c2 "")).
  rewrite !append_cons, append_nil.
  rewrite (TrimLeftSpaceRev_space (byte 10)) by reflexivity.
  rewrite (TrimLeftSpaceRev_plain c2 _ H2), reverse_cons, reverse_involutive.
  now symmetry.
Qed.

(** Lines that begin and end with a plain byte join to such a text. *)
Lemma Join_framed (ls : list string) :
  ls <> [] ->
  Forall (fun l => (exists c r, l = String c r /\ plainByte c = true)
                   /\ (exists x c, l = x +:+ String c "" /\ plainByte c = true)) ls ->
  (exists c r, Join ls nl = String c r /\ plainByte c = true)
  /\ (exists x c, Join ls nl = x +:+ String c "" /\ plainByte c = true).
Proof.
  intros Hne Hall. induction Hall as [| l ls [Hs He] Hrest IH]; [congruence |].
  destruct ls as [| l2 ls]; [cbn [Join]; now split |].
  rewrite Join_cons by discriminate.
  destruct (IH ltac:(discriminate)) as [_ (x' & c' & HJ & Hc')].
  split.
  - destruct Hs as (c & r & -> & Hc). exists c. eexists.
    rewrite append_cons. split; [reflexivity | exact Hc].
  - exists (l +:+ nl +:+ x'), c'. rewrite HJ, !append_assoc.
    split; [reflexivity | exact Hc'].
Qed.

Lemma digitsString_app (a b : list Z) :
  digitsString (a ++ b) = digitsString a +:+ digitsString b.
Proof.
  induction a as [| d a IH]; [reflexivity |].
  cbn [app digitsString]. rewrite append_cons. now rewrite IH.
Qed.

Lemma allPlain_excludes (c : ascii) (s : string) :
  allPlain s = true -> plainByte c = false -> inCutset c s = false.
Proof.
  intros Hs Hc. induction s as [| x s IH]; [reflexivity |].
  cbn [allPlain] in Hs. apply andb_true_iff in Hs as [Hx Hs].
  cbn [inCutset]. rewrite (IH Hs), orb_false_r.
  apply Ascii.eqb_neq. intros ->. congruence.
Qed.

Lemma peerLine_shape (peer : string * list Z) :
  wellFormedPeer peer ->
  ((exists c r, peerLine peer = String c r /\ plainByte c = true)
   /\ (exists x c, peerLine peer = x +:+ String c "" /\ plainByte c = true))
  /\ oneLine (peerLine peer).
Proof.
  intros (Hk & Hkp & Hne & Hds & _). unfold peerLine. split; [split |].
  - destruct (fst peer) as [| c k]; [congruence |].
    cbn [allPlain] in Hkp. apply andb_true_iff in Hkp as [Hc _].
    exists c. eexists. rewrite append_cons. split; [reflexivity | exact Hc].
  - destruct (exists_last Hne) as (ds' & d & Heq). rewrite Heq in *.
    apply Forall_app in Hds as [_ Hd]. inversion Hd as [| ? ? Hd9 _]; subst.
    exists (fst peer +:+ tab +:+ digitsString ds'), (digitChar d).
    rewrite digitsString_app, !append_assoc.
    split; [reflexivity | now destruct (digitChar_facts d Hd9)].
  - unfold oneLine. rewrite !inCutset_append.
    rewrite (allPlain_excludes (byte 10) (fst peer) Hkp eq_refl).
    rewrite (allPlain_excludes (byte 10) _ (digitsString_plain _ Hds) eq_refl).
    reflexivity.
Qed.

Lemma max_fold (values : list Z) (a : Z) :
  a <= fold_left Z.max values a
  /\ (fold_left Z.max values a = a <-> Forall (fun v => v <= a) values).
Proof.
  revert a. induction values as [| v values IH]; intros a.
  - cbn. split; [lia | split; [constructor | reflexivity]].
  - cbn [fold_left]. destruct (IH (Z.max a v)) as [Hle Hiff]. split; [lia |].
    split.
    + intros Heq. assert (Hv : v <= a) by lia.
      constructor; [exact Hv |].
      replace (Z.max a v) with a in * by lia. now apply Hiff.
    + intros Hall. inversion Hall as [| ? ? Hv Hrest]; subst.
      replace (Z.max a v) with a in * by lia. now apply Hiff.
Qed.

(** X17. On what [wg] prints for well-formed peers (a key, a tab, a decimal
    timestamp that fits in 64 bits, a line feed, per peer)
    [getWireGuardIdleDuration] finds the largest timestamp: it reports "no
    handshake" exactly when every peer's timestamp is 0 (or there is no
    peer), and otherwise the time since the most recent handshake. *)
Theorem reads_latest_handshake
    (sinceUnix : Z -> Duration) (peers : list (string * list Z)) :
  Forall wellFormedPeer peers ->
  latestHandshake (wgOutput peers) = latestOf peers
  /\ getWireGuardIdleDuration sinceUnix (inl (wgOutput peers))
     = (if latestOf peers =? 0 then mkWgStatus 0 true None
        else mkWgStatus (sinceUnix (latestOf peers)) false None)
  /\ (latestOf peers = 0 <->
      Forall (fun peer => digitsValue (snd peer) = 0) peers).
Proof.
  intros Hall.
  assert (Hlatest : latestHandshake (wgOutput peers) = latestOf peers).
  { unfold latestHandshake, wgOutput, latestOf.
    destruct peers as [| peer peers]; [vm_compute; reflexivity |].
    assert (Hshapes : Forall (fun l =>
              (exists c r, l = String c r /\ plainByte c = true)
              /\ (exists x c, l = x +:+ String c "" /\ plainByte c = true))
              (map peerLine (peer :: peers))).
    { apply Forall_map. eapply Forall_impl; [exact Hall |].
      intros p Hp. now destruct (peerLine_shape p Hp). }
    destruct (Join_framed (map peerLine (peer :: peers)) ltac:(discriminate) Hshapes)
      as [(c1 & r & Hs & H1) (x & c2 & He & H2)].
    rewrite (TrimSpace_final_newline _ r x c1 c2 Hs He H1 H2).
    rewrite Split_Join.
    - now apply scanLines_peers.
    - discriminate.
    - apply Forall_map. eapply Forall_impl; [exact Hall |].
      intros p Hp. now destruct (peerLine_shape p Hp). }
  split; [exact Hlatest | split].
  - cbn [getWireGuardIdleDuration]. cbv zeta. now rewrite Hlatest.
  - unfold latestOf. rewrite (proj2 (max_fold _ 0)), Forall_map.
    assert (Hnn : Forall (fun p => 0 <= digitsValue (snd p)) peers).
    { eapply Forall_impl; [exact Hall |].
      intros p (_ & _ & _ & Hds & _).
      now apply (digits_fold_nonneg (snd p) 0 Hds). }
    clear Hlatest.
    split; intros Hz.
    + induction Hnn as [| p ps Hp _ IH]; [constructor |].
      inversion Hz; inversion Hall; subst.
      constructor; [cbn in *; lia | now apply IH].
    + induction Hnn as [| p ps Hp _ IH]; [constructor |].
      inversion Hz; inversion Hall; subst.
      constructor; [cbn in *; lia | now apply IH].
Qed.

End WireguardCoverage.

(** * The added properties on concrete inputs *)

Section CoverageExamples.
Import GoStrings GoStrconv Endpoint Http Config Gate Keepalive Wireguard Sample.

(** Three requests with the right token on a fresh, writable volume. *)
Lemma page_served_at_most_once_witness :
  writeChecked (ServerGate server) fresh
  /\ (servedCount
        (fst (serveAll (ServerGate server) fresh
                [(withToken "s3cret", noon); (withToken "s3cret", evening);
                 (noToken, evening)])) <= 1)%nat.
Proof.
  assert (Hw : writeChecked (ServerGate server) fresh) by reflexivity.
  split; [exact Hw |].
  exact (page_served_at_most_once (ServerGate server) fresh _ Hw).
Defined.

(** The peer configuration after a served request and a refused one. *)
Lemma only_the_marker_is_written_witness :
  "/config/peer1/peer1.conf" <> markerPath (MainGate locals)
  /\ files (snd (serveAll (MainGate locals) fresh
                   [(withToken "s3cret", noon); (withToken "wrong", evening)]))
       !! "/config/peer1/peer1.conf"
     = Some peerConf.
Proof.
  assert (Hpath : "/config/peer1/peer1.conf" <> markerPath (MainGate locals))
    by (vm_compute; discriminate).
  split; [exact Hpath |].
  destruct (only_the_marker_is_written (MainGate locals) fresh
              [(withToken "s3cret", noon); (withToken "wrong", evening)]
              "/config/peer1/peer1.conf" Hpath) as [Hfile _].
  rewrite Hfile. vm_compute. reflexivity.
Defined.

(** The page served for the sample configuration. *)
Lemma page_shows_the_encoded_text_witness :
  let config := "[Peer]" +:+ nl +:+ "Endpoint = [2a02:1234::1]:51820" +:+ nl in
  In (EvExecute config ("b64:PNG:" +:+ config))
     (trace (run (serve (MainGate locals) (withToken "s3cret") noon) fresh))
  /\ In (EvEncode config)
        (trace (run (serve (MainGate locals) (withToken "s3cret") noon) fresh)).
Proof.
  intros config.
  assert (Hin : In (EvExecute config ("b64:PNG:" +:+ config))
                  (trace (run (serve (MainGate locals) (withToken "s3cret") noon)
                            fresh))).
  { vm_compute. do 5 right. left. reflexivity. }
  split; [exact Hin |].
  exact (proj1 (page_shows_the_encoded_text (MainGate locals) fresh
                  (withToken "s3cret") noon config _ Hin)).
Defined.

(** Both programs, set up from the sample environment, on a fresh volume. *)
Lemma handlers_agree_when_nothing_fails_witness :
  authorised (MainGate (Main.main_locals env)) (withToken "s3cret")
  /\ response (run (Bootstrap.bootstrap (Bootstrap.NewServer (Config.Load env))
                      (withToken "s3cret") noon) fresh)
     = response (run (Main.bootstrap (Main.main_locals env)
                        (withToken "s3cret") noon) fresh).
Proof.
  assert (Hok : authorised (MainGate (Main.main_locals env)) (withToken "s3cret"))
    by (right; vm_compute; reflexivity).
  assert (Henc : forall conf,
            files fresh !! Main.confPath (Main.main_locals env) = Some conf ->
            qrcode_Encode
              (Endpoint.rewriteEndpoint conf
                 (Main.endpointHost (Main.main_locals env))
                 (Main.endpointPort (Main.main_locals env))) <> None).
  { intros conf Hconf. vm_compute in Hconf. injection Hconf as <-.
    vm_compute. discriminate. }
  split; [exact Hok |].
  exact (proj1 (handlers_agree_when_nothing_fails env fresh (withToken "s3cret")
                  noon Hok eq_refl Henc)).
Defined.

(** An interface section has no Endpoint line. *)
Lemma no_endpoint_line_no_change_witness :
  Forall (fun l => isEndpointLine l = false)
    (Split ("[Interface]" +:+ nl +:+ "Address = 10.13.13.2" +:+ nl) nl)
  /\ rewriteEndpoint ("[Interface]" +:+ nl +:+ "Address = 10.13.13.2" +:+ nl)
       "myvpn" "51820"
     = "[Interface]" +:+ nl +:+ "Address = 10.13.13.2" +:+ nl.
Proof.
  assert (Hnone : Forall (fun l => isEndpointLine l = false)
            (Split ("[Interface]" +:+ nl +:+ "Address = 10.13.13.2" +:+ nl) nl)).
  { vm_compute. repeat constructor. }
  split; [exact Hnone |].
  exact (no_endpoint_line_no_change _ "myvpn" "51820" Hnone).
Defined.

Lemma sample_first_endpoint :
  firstEndpointAt (Split peerConf nl) 1 "Endpoint = 2a02:1234::1:51820".
Proof.
  split; [vm_compute; reflexivity | split; [vm_compute; reflexivity |]].
  intros j l Hj. assert (j = 0%nat) as -> by lia.
  vm_compute. intros [= <-]. reflexivity.
Defined.

(** The sample configuration with the host name known. *)
Lemma known_host_replaces_first_endpoint_witness :
  firstEndpointAt (Split peerConf nl) 1 "Endpoint = 2a02:1234::1:51820"
  /\ rewriteEndpoint peerConf "myvpn" "51820"
     = "[Peer]" +:+ nl +:+ "Endpoint = myvpn.fly.dev:51820" +:+ nl.
Proof.
  split; [exact sample_first_endpoint |].
  destruct (known_host_replaces_first_endpoint peerConf "myvpn" "51820" 1%nat
              "Endpoint = 2a02:1234::1:51820"
              ltac:(discriminate) ltac:(discriminate) sample_first_endpoint)
    as [Hout _].
  rewrite Hout. vm_compute. reflexivity.
Defined.

(** A one-line text that is already normalised. *)
Lemma normalised_text_is_a_fixed_point_witness :
  firstEndpointAt (Split "  Endpoint = myvpn.fly.dev:51820" nl) 0
    "  Endpoint = myvpn.fly.dev:51820"
  /\ rewriteEndpoint "  Endpoint = myvpn.fly.dev:51820" "myvpn" "51820"
     = "  Endpoint = myvpn.fly.dev:51820".
Proof.
  assert (Hfirst : firstEndpointAt (Split "  Endpoint = myvpn.fly.dev:51820" nl) 0
                     "  Endpoint = myvpn.fly.dev:51820").
  { split; [vm_compute; reflexivity | split; [vm_compute; reflexivity |]].
    intros j l Hj. lia. }
  split; [exact Hfirst |].
  apply (normalised_text_is_a_fixed_point _ "myvpn" "51820" 0%nat
           "  Endpoint = myvpn.fly.dev:51820");
    [discriminate | discriminate | exact Hfirst | vm_compute; reflexivity].
Defined.

(** Rewriting the sample configuration twice. *)
Lemma rewriteEndpoint_idempotent_witness :
  oneLine "myvpn" /\ oneLine "51820"
  /\ rewriteEndpoint (rewriteEndpoint peerConf "myvpn" "51820") "myvpn" "51820"
     = rewriteEndpoint peerConf "myvpn" "51820".
Proof.
  assert (Ha : oneLine "myvpn") by reflexivity.
  assert (Hp : oneLine "51820") by reflexivity.
  repeat (split; [assumption |]).
  exact (rewriteEndpoint_idempotent peerConf "myvpn" "51820" Ha Hp).
Defined.

(** The state after a startup tick, an active tick and a failed query. *)
Lemma session_record_is_sound_witness :
  fst (loopFrom wake 0 initial [warmup; active; failing])
  = Running (mkTracker (10 * Second) true (150 * Second))
  /\ lastIdle (mkTracker (10 * Second) true (150 * Second)) <= maxIdle.
Proof.
  assert (Hrun : fst (loopFrom wake 0 initial [warmup; active; failing])
                 = Running (mkTracker (10 * Second) true (150 * Second)))
    by (vm_compute; reflexivity).
  split; [exact Hrun |].
  exact (proj1 (session_record_is_sound wake 0 [warmup; active; failing] _ Hrun)).
Defined.

(** A later active tick does not move the start of the session. *)
Lemma session_start_is_fixed_witness :
  fst (loopFrom wake 0 initial [warmup; active])
  = Running (mkTracker (10 * Second) true (150 * Second))
  /\ fst (loopFrom wake 0 (mkTracker (10 * Second) true (150 * Second))
            [failing; mkTick (190 * Second) (mkWgStatus (5 * Second) false None) true])
     = Running (mkTracker (5 * Second) true (150 * Second))
  /\ connectedSince (mkTracker (5 * Second) true (150 * Second)) = 150 * Second.
Proof.
  assert (Hpre : fst (loopFrom wake 0 initial [warmup; active])
                 = Running (mkTracker (10 * Second) true (150 * Second)))
    by (vm_compute; reflexivity).
  assert (Hmore : fst (loopFrom wake 0 (mkTracker (10 * Second) true (150 * Second))
                         [failing;
                          mkTick (190 * Second) (mkWgStatus (5 * Second) false None) true])
                  = Running (mkTracker (5 * Second) true (150 * Second)))
    by (vm_compute; reflexivity).
  repeat (split; [assumption |]).
  exact (proj2 (session_start_is_fixed wake 0 [warmup; active] _ _ _
                  Hpre eq_refl Hmore)).
Defined.

(** After the startup window, a [wg] that prints nothing ends the loop. *)
Lemma command_outcome_decides_witness :
  loopFrom wake 0 initial [warmup]
  = (Running initial, snd (loopFrom wake 0 initial [warmup]))
  /\ startupWindow < 150 * Second - 0
  /\ fst (loopFrom wake 0 initial
            ([warmup] ++ [tickOf (fun ts => 1700000000 * Second - ts * Second)
                            (150 * Second) (inl "") true]))
     = Stopped.
Proof.
  assert (Hrun : loopFrom wake 0 initial [warmup]
                 = (Running initial, snd (loopFrom wake 0 initial [warmup])))
    by reflexivity.
  assert (Hout : startupWindow < 150 * Second - 0) by (vm_compute; reflexivity).
  repeat (split; [assumption |]).
  apply (proj2 (command_outcome_decides wake 0 _ initial initial [warmup] _
                  (150 * Second) (inl "") true Hrun Hout)).
  exists EmptyString. split; [reflexivity | left; vm_compute; reflexivity].
Defined.

(** Two peers, one of which has never shaken hands. *)
Lemma reads_latest_handshake_witness :
  Forall wellFormedPeer [("abc=", [1; 7; 0]); ("Zz9+/=", [0])]
  /\ latestHandshake ("abc=" +:+ tab +:+ "170" +:+ nl +:+ "Zz9+/=" +:+ tab +:+ "0" +:+ nl)
     = 170.
Proof.
  assert (Hall : Forall wellFormedPeer [("abc=", [1; 7; 0]); ("Zz9+/=", [0])]).
  { repeat constructor; cbn; try discriminate; try lia. }
  split; [exact Hall |].
  exact (proj1 (reads_latest_handshake (fun ts => ts) _ Hall)).
Defined.

(** An IPv4 endpoint with no host name configured. *)
Lemma plain_endpoint_left_alone_witness :
  firstEndpointAt (Split "Endpoint = 203.0.113.7:51820" nl) 0
    "Endpoint = 203.0.113.7:51820"
  /\ Count (currentOf "Endpoint = 203.0.113.7:51820") ":" <= 1
  /\ rewriteEndpoint "Endpoint = 203.0.113.7:51820" "" "51820"
     = "Endpoint = 203.0.113.7:51820".
Proof.
  assert (Hfirst : firstEndpointAt (Split "Endpoint = 203.0.113.7:51820" nl) 0
                     "Endpoint = 203.0.113.7:51820").
  { split; [vm_compute; reflexivity | split; [vm_compute; reflexivity |]].
    intros j l Hj. lia. }
  assert (Hcount : Count (currentOf "Endpoint = 203.0.113.7:51820") ":" <= 1)
    by (vm_compute; discriminate).
  repeat (split; [assumption |]).
  exact (plain_endpoint_left_alone _ "" "51820" 0%nat _ (or_introl eq_refl)
           Hfirst (or_introl Hcount)).
Defined.

End CoverageExamples.
